(** * openclaw-retell-voice: caller authorization, call-session bridge and
      gateway client, embedded from the TypeScript sources.

    JavaScript strings are modelled as [string]; a character stands for
    one code unit in the range U+0000..U+00FF. *)

From Stdlib Require Import Ascii String List Bool Arith ZArith Lia.
From stdpp Require Import base option list strings gmap.

Local Open Scope string_scope.

(** ** String primitives of the JavaScript runtime used by the sources *)
Module Js.

(** [\d] of a regular expression without the [u] flag: '0'..'9'. *)
Definition isDigit (c : ascii) : bool :=
  let n := nat_of_ascii c in (48 <=? n)%nat && (n <=? 57)%nat.

(** [s.startsWith(p)] *)
Fixpoint startsWith (s p : string) {struct p} : bool :=
  match p with
  | EmptyString => true
  | String a p' =>
      match s with
      | EmptyString => false
      | String b s' => Ascii.eqb a b && startsWith s' p'
      end
  end.

(** [a || b] on a possibly absent string: [undefined] and the empty string
    are falsy. *)
Definition truthy (o : option string) : bool :=
  match o with
  | Some s => negb (String.eqb s "")
  | None => false
  end.

Definition orElse (o : option string) (d : string) : string :=
  match o with
  | Some s => if String.eqb s "" then d else s
  | None => d
  end.

(** [s.toLowerCase()], one code unit at a time: 'A'..'Z' and the Latin-1
    capitals U+00C0..U+00DE (U+00D7 is the multiplication sign). *)
Definition lowerChar (c : ascii) : ascii :=
  let n := nat_of_ascii c in
  if ((65 <=? n)%nat && (n <=? 90)%nat)
     || ((192 <=? n)%nat && (n <=? 222)%nat && negb (n =? 215)%nat)
  then ascii_of_nat (n + 32) else c.

Fixpoint toLowerCase (s : string) : string :=
  match s with
  | EmptyString => EmptyString
  | String c r => String (lowerChar c) (toLowerCase r)
  end.

(** [s.includes(t)] *)
Fixpoint includes (s t : string) : bool :=
  startsWith s t
  || match s with
     | EmptyString => false
     | String _ r => includes r t
     end.

(** [s.indexOf(t)], counted from position [i]; -1 when [t] does not occur. *)
Fixpoint indexOfFrom (s t : string) (i : Z) : Z :=
  if startsWith s t then i
  else match s with
       | EmptyString => (-1)%Z
       | String _ r => indexOfFrom r t (i + 1)
       end.

Definition indexOf (s t : string) : Z := indexOfFrom s t 0.

(** [s.slice(0, k)] and [s.slice(k)] for [0 <= k]. *)
Definition sliceTo (s : string) (k : Z) : string :=
  String.substring 0 (Z.to_nat k) s.

Definition sliceFrom (s : string) (k : Z) : string :=
  String.substring (Z.to_nat k) (String.length s - Z.to_nat k) s.

(** [s.split("/")] *)
Fixpoint splitSlash (s cur : string) : list string :=
  match s with
  | EmptyString => [cur]
  | String c r =>
      if Ascii.eqb c "/" then cur :: splitSlash r EmptyString
      else splitSlash r (cur ++ String c EmptyString)
  end.

(** White space and line terminators removed by [s.trim()]. *)
Definition isSpace (c : ascii) : bool :=
  let n := nat_of_ascii c in
  ((9 <=? n)%nat && (n <=? 13)%nat) || (n =? 32)%nat || (n =? 160)%nat.

Fixpoint trimStart (s : string) : string :=
  match s with
  | EmptyString => EmptyString
  | String c r => if isSpace c then trimStart r else s
  end.

Fixpoint trimEnd (s : string) : string :=
  match s with
  | EmptyString => EmptyString
  | String c r =>
      match trimEnd r with
      | EmptyString => if isSpace c then EmptyString else String c EmptyString
      | r' => String c r'
      end
  end.

Definition trim (s : string) : string := trimEnd (trimStart s).

(** [arr.slice(-n)] and [arr.slice(0, -1)] *)
Definition sliceLast {A} (n : nat) (l : list A) : list A :=
  drop (List.length l - n) l.

Definition dropLast {A} (l : list A) : list A := take (List.length l - 1) l.

Definition nl : string := String "010"%char EmptyString.

End Js.

(** ** config.ts (src/unnamed/part_002) *)
Module Config.

(** The character class [[^\d+]] matches what is removed; [keptChar] is its
    complement. *)
Definition keptChar (c : ascii) : bool := Js.isDigit c || Ascii.eqb c "+".

(** [phone.replace(/[^\d+]/g, "")] *)
Fixpoint stripNonPhone (s : string) : string :=
  match s with
  | EmptyString => EmptyString
  | String c r =>
      if keptChar c then String c (stripNonPhone r) else stripNonPhone r
  end.

Definition normalizePhone (phone : string) : string :=
  let normalized := stripNonPhone phone in
  if negb (Js.startsWith normalized "+") && (10 <=? String.length normalized)%nat
  then
    if (String.length normalized =? 10)%nat then "+1" ++ normalized
    else if (String.length normalized =? 11)%nat && Js.startsWith normalized "1"
         then "+" ++ normalized
         else normalized
  else normalized.

Definition isAllowedCaller (phone : string) (allowList : list string) : bool :=
  if (List.length allowList =? 0)%nat then true
  else
    let normalized := normalizePhone phone in
    existsb (fun allowed =>
               let normalizedAllowed := normalizePhone allowed in
               String.eqb normalized normalizedAllowed)
            allowList.

(** *** The normalization rule as the specification words it *)

Fixpoint digitsOnly (s : string) : string :=
  match s with
  | EmptyString => EmptyString
  | String c r => if Js.isDigit c then String c (digitsOnly r) else digitsOnly r
  end.

(** "strip all characters except digits and a leading [+]": a [+] survives
    only when nothing has been kept before it. *)
Fixpoint stripLeadingPlus (s : string) : string :=
  match s with
  | EmptyString => EmptyString
  | String c r =>
      if Js.isDigit c then String c (digitsOnly r)
      else if Ascii.eqb c "+" then String c (digitsOnly r)
      else stripLeadingPlus r
  end.

Fixpoint hasPlus (s : string) : bool :=
  match s with
  | EmptyString => false
  | String c r => Ascii.eqb c "+" || hasPlus r
  end.

(** Does a [+] occur after its first
    character of the stripped string? *)
Definition innerPlus (s : string) : bool :=
  match stripNonPhone s with
  | EmptyString => false
  | String _ r => hasPlus r
  end.

Definition normalize_spec (phone : string) : string :=
  let stripped := stripLeadingPlus phone in
  if negb (hasPlus stripped) && (String.length stripped =? 10)%nat
  then "+1" ++ stripped
  else if negb (hasPlus stripped) && (String.length stripped =? 11)%nat
          && Js.startsWith stripped "1"
       then "+" ++ stripped
       else stripped.

End Config.


(** ** Shapes shared by both variants of the call server *)
Module Retell.

(** The parts of [RetellVoiceConfig] the call server reads. *)
Record RetellVoiceConfig := {
  allowFrom : list string;
  greeting : string;
  responseModel : option string;
  responseTimeoutMs : Z
}.

(** [event.call] *)
Record CallDetails := {
  from_number : option string;
  to_number : option string;
  direction : option string
}.

(** [event.call || {}] *)
Definition callOrEmpty (c : option CallDetails) : CallDetails :=
  match c with
  | Some d => d
  | None => {| from_number := None; to_number := None; direction := None |}
  end.

(** One entry of [event.transcript]. *)
Record Utterance := {
  u_role : option string;
  u_content : option string
}.

(** A parsed inbound frame. *)
Record Event := {
  interaction_type : option string;
  call : option CallDetails;
  timestamp : option Z;
  response_id : option Z;
  ev_transcript : option (list Utterance)
}.

Inductive Role := user | agent.

Record TranscriptEntry := {
  role : Role;
  content : string
}.

(** Outbound frames. *)
Inductive Frame :=
| ConfigFrame (auto_reconnect call_details : bool)
| ResponseFrame (rid : option Z) (text : string)
                (content_complete end_call : bool)
| PingPongFrame (ts : option Z).

Definition isType (e : Event) (t : string) : bool :=
  match interaction_type e with
  | Some s => String.eqb s t
  | None => false
  end.

(** The two turn-producing kinds of event. *)
Definition isTurn (e : Event) : Prop :=
  interaction_type e = Some "response_required"
  \/ interaction_type e = Some "reminder_required".

Definition roleIs (u : Utterance) (r : string) : bool :=
  match u_role u with
  | Some s => String.eqb s r
  | None => false
  end.

(** [transcript.slice(-10).map(t => ({role: ..., content: t.content || ""}))] *)
Definition tagEntry (t : Utterance) : TranscriptEntry :=
  {| role := if roleIs t "agent" then agent else user;
     content := Js.orElse (u_content t) "" |}.

Definition windowOf (transcript : list Utterance) : list TranscriptEntry :=
  map tagEntry (Js.sliceLast 10 transcript).

(** [userMessages[userMessages.length - 1]] *)
Definition lastUserMessage (transcript : list Utterance) : option Utterance :=
  list.last (List.filter (fun t => roleIs t "user") transcript).

(** The hang-up test applied to a reply. *)
Definition farewells : list string :=
  ["goodbye"; "talk to you later"; "bye for now"; "have a good"].

Definition shouldEndCall (response : string) : bool :=
  Js.includes (Js.toLowerCase response) "goodbye"
  || Js.includes (Js.toLowerCase response) "talk to you later"
  || Js.includes (Js.toLowerCase response) "bye for now"
  || Js.includes (Js.toLowerCase response) "have a good".

Definition rejection : Frame :=
  ResponseFrame (Some 0%Z) "Sorry, this number is not authorized. Goodbye."
                true true.

Definition holding (e : Event) : Frame :=
  ResponseFrame (response_id e) "One moment please..." true false.

Definition promptForInput (e : Event) : Frame :=
  ResponseFrame (response_id e) "I'm here! What can I help you with?"
                true false.

Definition apology (e : Event) : Frame :=
  ResponseFrame (response_id e)
                "Sorry, I had a brief hiccup. Can you say that again?"
                true false.

(** [pathParts[pathParts.length - 1] || crypto.randomUUID()] *)
Definition callIdOf (url : option string) (uuid : string) : string :=
  let pathParts :=
    match url with
    | Some u => Js.splitSlash u EmptyString
    | None => []
    end in
  Js.orElse (list.last pathParts) uuid.

End Retell.

(** ** websocket-server.ts, gateway variant (src/index.ts, second part) *)
Module WebSocketServer.
Import Retell.

Record CallSession := {
  callId : string;
  fromNumber : option string;
  authorized : bool;
  transcript : list TranscriptEntry;
  sessionKey : string
}.

Record ChatOpts := {
  o_sessionKey : string;
  o_message : string;
  o_systemContext : string;
  o_timeoutMs : Z
}.

(** [ChatResponse] of gateway-client.ts *)
Record ChatResponse := {
  text : string;
  error : option bool;
  aborted : option bool
}.

(** What the shared gateway client does during one turn: whether it is
    connected, whether [connect()] resolves, and how the promise of
    [chat(opts)] settles ([None]: it rejects). *)
Record Gateway := {
  isConnected : bool;
  connectOk : bool;
  chat : ChatOpts -> option ChatResponse
}.

(** Observable actions of a handler, in order. *)
Inductive Effect :=
| Send (f : Frame)
| GatewayConnect
| GatewayChat (opts : ChatOpts).

Definition isBackendCall (e : Effect) : bool :=
  match e with
  | Send _ => false
  | GatewayConnect | GatewayChat _ => true
  end.

Definition backendCalls (tr : list Effect) : nat :=
  List.length (List.filter isBackendCall tr).

Definition framesOf (tr : list Effect) : list Frame :=
  omap (fun e => match e with Send f => Some f | _ => None end) tr.

Definition configFrame : Frame := ConfigFrame true true.

Definition handleConnection (url : option string) (uuid : string)
  : CallSession * list Effect :=
  let callId := callIdOf url uuid in
  ({| callId := callId;
      fromNumber := None;
      authorized := false;
      transcript := [];
      sessionKey := "retell:" ++ callId |},
   [Send configFrame]).

Definition voicePrompt (session : CallSession) : string :=
  "You are speaking on a phone call. The caller's number is "
  ++ Js.orElse (fromNumber session) "unknown" ++ "." ++ Js.nl ++ Js.nl
  ++ "VOICE CALL GUIDELINES:" ++ Js.nl
  ++ "- Keep responses SHORT and conversational (1-3 sentences max)" ++ Js.nl
  ++ "- Be concise - the caller may be driving or multitasking  " ++ Js.nl
  ++ "- Use natural speech patterns, not formal writing" ++ Js.nl
  ++ "- Don't use markdown, bullet points, or formatting - just speak naturally"
  ++ Js.nl
  ++ "- You have full access to tools - use them when helpful" ++ Js.nl
  ++ "- If you need to do something that takes time, say so briefly"
  ++ Js.nl ++ Js.nl
  ++ "Be helpful, direct, and sound like a friend - not a corporate assistant.".

Definition historyLine (t : TranscriptEntry) : string :=
  (match role t with agent => "You" | user => "Caller" end)
  ++ ": " ++ content t.

Definition extraSystemPrompt (session : CallSession) : string :=
  if (1 <? List.length (transcript session))%nat then
    let history :=
      String.concat Js.nl (map historyLine (Js.dropLast (transcript session))) in
    voicePrompt session ++ Js.nl ++ Js.nl ++ "Recent conversation:" ++ Js.nl
    ++ history
  else voicePrompt session.

(** [ctx.config.responseTimeoutMs || 30000] *)
Definition timeoutOf (cfg : RetellVoiceConfig) : Z :=
  if (responseTimeoutMs cfg =? 0)%Z then 30000%Z else responseTimeoutMs cfg.

(** Returns the actions on the gateway and the reply; [None] when the
    function throws. *)
Definition generateAgentResponse (ctx : option RetellVoiceConfig) (gw : Gateway)
    (session : CallSession) (userMessage : string)
  : list Effect * option string :=
  match ctx with
  | None => ([], None)
  | Some cfg =>
      let pre := if isConnected gw then [] else [GatewayConnect] in
      if negb (isConnected gw) && negb (connectOk gw) then (pre, None)
      else
        let opts := {| o_sessionKey := sessionKey session;
                       o_message := userMessage;
                       o_systemContext := extraSystemPrompt session;
                       o_timeoutMs := timeoutOf cfg |} in
        match chat gw opts with
        | None => ((pre ++ [GatewayChat opts])%list, None)
        | Some result =>
            ((pre ++ [GatewayChat opts])%list,
             Some (if String.eqb (text result) "" then
                     if bool_decide (aborted result = Some true)
                     then "Sorry, I ran out of time on that one. What were you asking?"
                     else "Hmm, I'm not sure what to say. Can you try again?"
                   else text result))
        end
  end.

(** [session.transcript = w] *)
Definition setTranscript (s : CallSession) (w : list TranscriptEntry)
  : CallSession :=
  {| callId := callId s;
     fromNumber := fromNumber s;
     authorized := authorized s;
     transcript := w;
     sessionKey := sessionKey s |}.

(** [session.fromNumber = n; session.sessionKey = k; session.authorized = true] *)
Definition authorize (s : CallSession) (n : option string) (k : string)
  : CallSession :=
  {| callId := callId s;
     fromNumber := n;
     authorized := true;
     transcript := transcript s;
     sessionKey := k |}.

Definition numberToCheck (c : CallDetails) : option string :=
  let direction := Js.orElse (direction c) "inbound" in
  if String.eqb direction "outbound" then to_number c else from_number c.

Definition phoneForSession (c : CallDetails) : option string :=
  let direction := Js.orElse (direction c) "inbound" in
  if String.eqb direction "outbound" then to_number c else from_number c.

(** [data] is [None] when [JSON.parse] throws. The session is written only
    before the first [await], so one call is one atomic step on it. *)
Definition handleMessage (ctx : option RetellVoiceConfig) (gw : Gateway)
    (session : CallSession) (data : option Event)
  : CallSession * list Effect :=
  match ctx, data with
  | None, _ => (session, [])
  | Some _, None => (session, [])
  | Some cfg, Some event =>
      if isType event "call_details" then
        let call := callOrEmpty (call event) in
        if negb (Config.isAllowedCaller (Js.orElse (numberToCheck call) "")
                                        (allowFrom cfg))
        then (session, [Send rejection])
        else
          let normalizedPhone :=
            Config.normalizePhone
              (Js.orElse (phoneForSession call) (callId session)) in
          (authorize session (phoneForSession call)
                     ("retell:" ++ normalizedPhone),
           [Send (ResponseFrame (Some 0%Z) (greeting cfg) true false)])
      else if isType event "ping_pong" then
        (session, [Send (PingPongFrame (timestamp event))])
      else if isType event "response_required"
              || isType event "reminder_required" then
        if negb (authorized session)
           && (0 <? List.length (allowFrom cfg))%nat
        then (session, [Send (holding event)])
        else
          let transcript := default [] (ev_transcript event) in
          match lastUserMessage transcript with
          | Some last =>
              if Js.truthy (u_content last) then
                let session' := setTranscript session (windowOf transcript) in
                let msg := Js.orElse (u_content last) "" in
                match generateAgentResponse ctx gw session' msg with
                | (calls, Some response) =>
                    (session',
                     (calls ++ [Send (ResponseFrame (response_id event) response
                                        true (shouldEndCall response))])%list)
                | (calls, None) => (session', (calls ++ [Send (apology event)])%list)
                end
              else (session, [Send (promptForInput event)])
          | None => (session, [Send (promptForInput event)])
          end
      else (session, [])
  end.

(** A call: the connection, then the inbound frames in arrival order, each
    with the server context and the gateway behaviour of its moment. *)
Definition Step : Type := option RetellVoiceConfig * Gateway * option Event.

Definition runCall (session : CallSession) (steps : list Step) : CallSession :=
  fold_left (fun s '(ctx, gw, data) => fst (handleMessage ctx gw s data))
            steps session.

End WebSocketServer.

(** ** websocket-server.ts, embedded-agent variant (src/unnamed/part_001) *)
Module EmbeddedServer.
Import Retell.

Record CallSession := {
  callId : string;
  fromNumber : option string;
  authorized : bool;
  transcript : list TranscriptEntry;
  sessionId : string;
  sessionKey : string
}.

Inductive Effect :=
| Send (f : Frame)
| RunAgent (userMessage : string).

Definition isBackendCall (e : Effect) : bool :=
  match e with
  | Send _ => false
  | RunAgent _ => true
  end.

Definition handleConnection (url : option string) (uuid1 uuid2 : string)
  : CallSession * list Effect :=
  let callId := callIdOf url uuid1 in
  ({| callId := callId;
      fromNumber := None;
      authorized := false;
      transcript := [];
      sessionId := uuid2;
      sessionKey := "retell:" ++ callId |},
   [Send (ConfigFrame true true)]).

Section ModelRef.
(** [deps.DEFAULT_PROVIDER] and [deps.DEFAULT_MODEL] come from
    core-bridge.js, which is not among the sources. *)
Variables DEFAULT_PROVIDER DEFAULT_MODEL : string.

Definition modelRef (cfg : RetellVoiceConfig) : string :=
  Js.orElse (responseModel cfg) (DEFAULT_PROVIDER ++ "/" ++ DEFAULT_MODEL).

Definition slashIndex (cfg : RetellVoiceConfig) : Z :=
  Js.indexOf (modelRef cfg) "/".

Definition provider (cfg : RetellVoiceConfig) : string :=
  if (slashIndex cfg =? -1)%Z then DEFAULT_PROVIDER
  else Js.sliceTo (modelRef cfg) (slashIndex cfg).

Definition model (cfg : RetellVoiceConfig) : string :=
  if (slashIndex cfg =? -1)%Z then modelRef cfg
  else Js.sliceFrom (modelRef cfg) (slashIndex cfg + 1).
End ModelRef.

Section Handler.
(** The outcome of [generateAgentResponse], which runs the embedded agent
    of core-bridge.js: the reply, or [None] when it throws. It reads the
    session and does not write it. *)
Variable generateAgentResponse : CallSession -> string -> option string.

(** [session.fromNumber = n] *)
Definition setFromNumber (s : CallSession) (n : option string) : CallSession :=
  {| callId := callId s;
     fromNumber := n;
     authorized := authorized s;
     transcript := transcript s;
     sessionId := sessionId s;
     sessionKey := sessionKey s |}.

Definition setTranscript (s : CallSession) (w : list TranscriptEntry)
  : CallSession :=
  {| callId := callId s;
     fromNumber := fromNumber s;
     authorized := authorized s;
     transcript := w;
     sessionId := sessionId s;
     sessionKey := sessionKey s |}.

(** [session.sessionKey = k; session.authorized = true] *)
Definition authorize (s : CallSession) (k : string) : CallSession :=
  {| callId := callId s;
     fromNumber := fromNumber s;
     authorized := true;
     transcript := transcript s;
     sessionId := sessionId s;
     sessionKey := k |}.

Definition handleMessage (ctx : option RetellVoiceConfig)
    (session : CallSession) (data : option Event)
  : CallSession * list Effect :=
  match ctx, data with
  | None, _ => (session, [])
  | Some _, None => (session, [])
  | Some cfg, Some event =>
      if isType event "call_details" then
        let call := callOrEmpty (call event) in
        let session := setFromNumber session (from_number call) in
        if negb (Config.isAllowedCaller (Js.orElse (fromNumber session) "")
                                        (allowFrom cfg))
        then (session, [Send rejection])
        else
          let normalizedPhone :=
            Config.normalizePhone
              (Js.orElse (fromNumber session) (callId session)) in
          (authorize session ("retell:" ++ normalizedPhone),
           [Send (ResponseFrame (Some 0%Z) (greeting cfg) true false)])
      else if isType event "ping_pong" then
        (session, [Send (PingPongFrame (timestamp event))])
      else if isType event "response_required"
              || isType event "reminder_required" then
        if negb (authorized session)
           && (0 <? List.length (allowFrom cfg))%nat
        then (session, [Send (holding event)])
        else
          let transcript := default [] (ev_transcript event) in
          match lastUserMessage transcript with
          | Some last =>
              if Js.truthy (u_content last) then
                let session' := setTranscript session (windowOf transcript) in
                let msg := Js.orElse (u_content last) "" in
                match generateAgentResponse session' msg with
                | Some response =>
                    (session',
                     [RunAgent msg;
                      Send (ResponseFrame (response_id event) response
                              true (shouldEndCall response))])
                | None => (session', [RunAgent msg; Send (apology event)])
                end
              else (session, [Send (promptForInput event)])
          | None => (session, [Send (promptForInput event)])
          end
      else (session, [])
  end.
End Handler.

Definition Step : Type :=
  (CallSession -> string -> option string)
  * option RetellVoiceConfig * option Event.

Definition runCall (session : CallSession) (steps : list Step) : CallSession :=
  fold_left (fun s '(gen, ctx, data) => fst (handleMessage gen ctx s data))
            steps session.

End EmbeddedServer.

(** ** gateway-client.ts: the table of pending chats *)
Module GatewayClient.
Import WebSocketServer.

(** An entry of [pendingChats]. [resolve] names the promise returned by
    [chat], [timeout] the handle of its timer. *)
Record PendingChat := {
  resolve : nat;
  timeout : nat;
  chunks : list string
}.

(** The chat-related state of a [GatewayClient]: the [pendingChats] map, the
    promises of [chat] that are settled (a promise keeps its first
    settlement), and the timers that are armed, each with the [runId] its
    callback closes over. *)
Record Client := {
  pendingChats : gmap string PendingChat;
  settled : gmap nat ChatResponse;
  timers : gmap nat string;
  fresh : nat
}.

Definition newClient : Client :=
  {| pendingChats := ∅; settled := ∅; timers := ∅; fresh := 0 |}.

(** Calling the [resolve] function of promise [p]. *)
Definition resolvePromise (p : nat) (v : ChatResponse) (c : Client) : Client :=
  match settled c !! p with
  | Some _ => c
  | None =>
      {| pendingChats := pendingChats c;
         settled := <[p := v]> (settled c);
         timers := timers c;
         fresh := fresh c |}
  end.

Definition deleteChat (runId : string) (c : Client) : Client :=
  {| pendingChats := delete runId (pendingChats c);
     settled := settled c;
     timers := timers c;
     fresh := fresh c |}.

Definition clearTimeout (h : nat) (c : Client) : Client :=
  {| pendingChats := pendingChats c;
     settled := settled c;
     timers := delete h (timers c);
     fresh := fresh c |}.

Definition tookTooLong : ChatResponse :=
  {| text := "Sorry, I took too long. Can you try again?";
     error := None;
     aborted := Some true |}.

(** The executor of the promise that [chat] returns once [chat.send] has
    answered with [runId]: arm the timer, record the pending chat. *)
Definition awaitChat (runId : string) (timeoutMs : Z) (c : Client)
  : nat * Client :=
  let p := fresh c in
  (p,
   {| pendingChats :=
        <[runId := {| resolve := p; timeout := p; chunks := [] |}]>
          (pendingChats c);
      settled := settled c;
      timers := <[p := runId]> (timers c);
      fresh := S p |}).

(** The timer callback of [chat]; it runs only while the timer is armed. *)
Definition fireTimeout (h : nat) (c : Client) : Client :=
  match timers c !! h with
  | None => c
  | Some runId =>
      resolvePromise h tookTooLong (deleteChat runId (clearTimeout h c))
  end.

(** [msg.payload] of an [agent] event. *)
Record AgentPayload := {
  runId : option string;
  stream : option string;
  data_text : option string;
  data_phase : option string
}.

Inductive Message :=
| AgentEvent (payload : AgentPayload)
| OtherMessage.

Definition streamIs (p : AgentPayload) (s : string) : bool :=
  match stream p with
  | Some x => String.eqb x s
  | None => false
  end.

Definition isFinal (phase : string) : bool :=
  String.eqb phase "end" || String.eqb phase "done"
  || String.eqb phase "error" || String.eqb phase "aborted".

Definition completion (phase text : string) : ChatResponse :=
  if String.eqb phase "error" then
    {| text := if String.eqb text "" then "Sorry, something went wrong." else text;
       error := Some true; aborted := None |}
  else if String.eqb phase "aborted" then
    {| text := if String.eqb text "" then "Response was interrupted." else text;
       error := None; aborted := Some true |}
  else {| text := text; error := None; aborted := None |}.

(** The branch of [handleMessage] for [agent] events; every other frame
    leaves the pending chats, their promises and their timers alone. *)
Definition handleMessage (msg : Message) (c : Client) : Client :=
  match msg with
  | OtherMessage => c
  | AgentEvent payload =>
      match runId payload with
      | None => c
      | Some rid =>
          if String.eqb rid "" then c
          else
            match pendingChats c !! rid with
            | None => c
            | Some chat =>
                let chat :=
                  if streamIs payload "assistant" && Js.truthy (data_text payload)
                  then {| resolve := resolve chat; timeout := timeout chat;
                          chunks := [Js.orElse (data_text payload) ""] |}
                  else chat in
                let c :=
                  {| pendingChats := <[rid := chat]> (pendingChats c);
                     settled := settled c;
                     timers := timers c;
                     fresh := fresh c |} in
                if streamIs payload "lifecycle" && Js.truthy (data_phase payload)
                then
                  let phase := Js.orElse (data_phase payload) "" in
                  if isFinal phase then
                    let text := Js.trim (String.concat "" (chunks chat)) in
                    resolvePromise (resolve chat) (completion phase text)
                      (deleteChat rid (clearTimeout (timeout chat) c))
                  else c
                else c
            end
      end
  end.

(** What can happen to a client, one event-loop task at a time. *)
Inductive Task :=
| TaskAwaitChat (runId : string) (timeoutMs : Z)
| TaskTimeout (h : nat)
| TaskMessage (msg : Message).

Definition runTask (t : Task) (c : Client) : Client :=
  match t with
  | TaskAwaitChat r ms => snd (awaitChat r ms c)
  | TaskTimeout h => fireTimeout h c
  | TaskMessage m => handleMessage m c
  end.

Definition runTasks (ts : list Task) (c : Client) : Client :=
  fold_left (fun c t => runTask t c) ts c.

(** What holds of every client state that tasks can produce: an armed timer
    belongs to a promise that is still pending, the timer and the promise
    of a pending chat were allocated together, and every handle in use was
    allocated. *)
Definition wf (c : Client) : Prop :=
  (forall h r, timers c !! h = Some r -> settled c !! h = None)
  /\ (forall h r, timers c !! h = Some r -> h < fresh c)
  /\ (forall p v, settled c !! p = Some v -> p < fresh c)
  /\ (forall rid chat, pendingChats c !! rid = Some chat ->
        resolve chat = timeout chat /\ resolve chat < fresh c).

End GatewayClient.

(** ** Sample calls, used to run the handlers on concrete frames *)
Module Fixture.
Import Retell.

Definition cfg : RetellVoiceConfig :=
  {| allowFrom := ["+15551234567"];
     greeting := "Hey! What's up?";
     responseModel := None;
     responseTimeoutMs := 30000 |}.

Definition callDetails (from to dir : option string) : Event :=
  {| interaction_type := Some "call_details";
     call := Some {| from_number := from; to_number := to; direction := dir |};
     timestamp := None;
     response_id := None;
     ev_transcript := None |}.

(** An outbound call placed from the agent's own line to an allowlisted
    number. *)
Definition outboundCall : Event :=
  callDetails (Some "+15550001111") (Some "+15551234567") (Some "outbound").

(** An inbound call from a number that is not on the allowlist. *)
Definition strangerCall : Event :=
  callDetails (Some "+15559990000") (Some "+15550001111") (Some "inbound").

Definition turn (rid : Z) (t : list Utterance) : Event :=
  {| interaction_type := Some "response_required";
     call := None;
     timestamp := None;
     response_id := Some rid;
     ev_transcript := Some t |}.

Definition says (r c : string) : Utterance :=
  {| u_role := Some r; u_content := Some c |}.

Definition weatherTurn : Event :=
  turn 7 [says "agent" "Hey! What's up?"; says "user" "That is all, thanks."].

(** A gateway that is connected and answers every chat with [reply]. *)
Definition answering (reply : string) : WebSocketServer.Gateway :=
  {| WebSocketServer.isConnected := true;
     WebSocketServer.connectOk := true;
     WebSocketServer.chat := fun _ =>
       Some {| WebSocketServer.text := reply;
               WebSocketServer.error := None;
               WebSocketServer.aborted := None |} |}.

Definition freshSession : WebSocketServer.CallSession :=
  fst (WebSocketServer.handleConnection (Some "/llm-websocket/call_42") "uuid-1").

Definition authorizedSession : WebSocketServer.CallSession :=
  WebSocketServer.authorize freshSession (Some "+15551234567")
    "retell:+15551234567".

End Fixture.

(** ** index.ts: the plugin configuration and the background service *)
Module Index.

(** A JavaScript value as [api.pluginConfig] can hold one. Numbers are the
    integral ones; an object is its list of keys and values. *)
Unset Elimination Schemes.
Inductive Json :=
| JUndefined
| JNull
| JBool (b : bool)
| JNum (n : Z)
| JStr (s : string)
| JArr (items : list Json)
| JObj (fields : list (string * Json)).
Set Elimination Schemes.

Fixpoint field (fields : list (string * Json)) (k : string) : Json :=
  match fields with
  | [] => JUndefined
  | (k', v) :: rest => if String.eqb k' k then v else field rest k
  end.

(** [v?.k], for a key that only an own property can define. *)
Definition get (v : Json) (k : string) : Json :=
  match v with
  | JObj fields => field fields k
  | _ => JUndefined
  end.

Definition truthy (v : Json) : bool :=
  match v with
  | JUndefined | JNull => false
  | JBool b => b
  | JNum n => negb (n =? 0)%Z
  | JStr s => negb (String.eqb s "")
  | JArr _ | JObj _ => true
  end.

(** [typeof v === "string" ? v : d] and its siblings. *)
Definition stringOr (v : Json) (d : string) : string :=
  match v with JStr s => s | _ => d end.

Definition stringOpt (v : Json) : option string :=
  match v with JStr s => Some s | _ => None end.

Definition numberOr (v : Json) (d : Z) : Z :=
  match v with JNum n => n | _ => d end.

Definition boolOr (v : Json) (d : bool) : bool :=
  match v with JBool b => b | _ => d end.

(** [Array.isArray(v) ? v.filter(x => typeof x === "string") : []] *)
Definition stringsOf (v : Json) : list string :=
  match v with
  | JArr items => omap stringOpt items
  | _ => []
  end.

Record WebsocketConfig := { port : Z; path : string }.

Record TailscaleConfig := { mode : Json; ts_path : option string }.

(** [RetellVoiceConfig] of config.ts, every field. *)
Record PluginConfig := {
  enabled : bool;
  apiKey : option string;
  allowFrom : list string;
  greeting : string;
  websocket : WebsocketConfig;
  tailscale : TailscaleConfig;
  responseModel : option string;
  responseTimeoutMs : Z
}.

(** [configSchema.parse] *)
Definition parse (value : Json) : PluginConfig :=
  let raw :=
    match value with
    | JObj _ => value
    | _ => JObj []
    end in
  {| enabled := boolOr (get raw "enabled") true;
     apiKey := stringOpt (get raw "apiKey");
     allowFrom := stringsOf (get raw "allowFrom");
     greeting := stringOr (get raw "greeting") "Hey! What's up?";
     websocket :=
       {| port := numberOr (get (get raw "websocket") "port") 8765;
          path := stringOr (get (get raw "websocket") "path") "/llm-websocket" |};
     tailscale :=
       {| mode := if truthy (get (get raw "tailscale") "mode")
                  then get (get raw "tailscale") "mode" else JStr "off";
          ts_path := stringOpt (get (get raw "tailscale") "path") |};
     responseModel := stringOpt (get raw "responseModel");
     responseTimeoutMs := numberOr (get raw "responseTimeoutMs") 30000 |}.

(** The fields of the configuration that the call server reads. *)
Definition forServer (c : PluginConfig) : Retell.RetellVoiceConfig :=
  {| Retell.allowFrom := allowFrom c;
     Retell.greeting := greeting c;
     Retell.responseModel := responseModel c;
     Retell.responseTimeoutMs := responseTimeoutMs c |}.

(** The module-level [serverRunning] of index.ts and [ctx] of
    websocket-server.ts ([ctx] is set exactly when its [wss] is). *)
Record Service := {
  serverRunning : bool;
  ctx : option Retell.RetellVoiceConfig
}.

Definition stopped : Service := {| serverRunning := false; ctx := None |}.

Inductive StartError := AlreadyRunning | GatewayUnreachable.

(** [startWebSocketServer]; [connects] tells whether [gateway.connect()]
    resolves. *)
Definition startWebSocketServer (config : Retell.RetellVoiceConfig)
    (connects : bool) (ctx : option Retell.RetellVoiceConfig)
  : option Retell.RetellVoiceConfig * option StartError :=
  match ctx with
  | Some _ => (ctx, Some AlreadyRunning)
  | None =>
      if connects then (Some config, None) else (None, Some GatewayUnreachable)
  end.

(** [stopWebSocketServer] *)
Definition stopWebSocketServer (ctx : option Retell.RetellVoiceConfig)
  : option Retell.RetellVoiceConfig :=
  None.

Inductive StartOutcome :=
| Started
| Warned
| Threw (e : StartError).

(** [start()] of the registered service *)
Definition start (config : Retell.RetellVoiceConfig) (connects : bool)
    (s : Service) : Service * StartOutcome :=
  if serverRunning s then (s, Warned)
  else
    match startWebSocketServer config connects (ctx s) with
    | (ctx', None) => ({| serverRunning := true; ctx := ctx' |}, Started)
    | (ctx', Some e) =>
        ({| serverRunning := serverRunning s; ctx := ctx' |}, Threw e)
    end.

(** [stop()] of the registered service *)
Definition stop (s : Service) : Service :=
  if negb (serverRunning s) then s
  else {| serverRunning := false; ctx := stopWebSocketServer (ctx s) |}.

Inductive Command :=
| CmdStart (config : Retell.RetellVoiceConfig) (connects : bool)
| CmdStop.

Definition runCommand (s : Service) (c : Command) : Service :=
  match c with
  | CmdStart config connects => fst (start config connects s)
  | CmdStop => stop s
  end.

Definition runCommands (cs : list Command) (s : Service) : Service :=
  fold_left runCommand cs s.

End Index.

(** ** websocket-server.ts: the registry of active calls *)
Module Registry.

(** [ctx.activeCalls], by key: the code sets and deletes entries and never
    reads one back. *)
Definition register (callId : string) (calls : gset string) : gset string :=
  {[ callId ]} ∪ calls.

(** [handleConnection], with its write to [activeCalls]. *)
Definition handleConnection (url : option string) (uuid : string)
    (calls : gset string)
  : WebSocketServer.CallSession * gset string :=
  let session := fst (WebSocketServer.handleConnection url uuid) in
  (session, register (WebSocketServer.callId session) calls).

(** [handleClose] *)
Definition handleClose (session : WebSocketServer.CallSession)
    (calls : gset string) : gset string :=
  calls ∖ {[ WebSocketServer.callId session ]}.

End Registry.

(** ** The embedded agent run of src/unnamed/part_001 *)
Module EmbeddedAgent.

Record SessionEntry := {
  e_sessionId : string;
  updatedAt : Z
}.

(** Lines 290-301 of [generateAgentResponse]: the entry of the session key
    is looked up in the loaded store and created when there is none. The
    flag tells whether [saveSessionStore] is called. *)
Definition sessionEntryOf (sessionStore : gmap string SessionEntry)
    (session : EmbeddedServer.CallSession) (now : Z)
  : gmap string SessionEntry * SessionEntry * bool :=
  match sessionStore !! EmbeddedServer.sessionKey session with
  | Some sessionEntry => (sessionStore, sessionEntry, false)
  | None =>
      let sessionEntry :=
        {| e_sessionId := EmbeddedServer.sessionId session;
           updatedAt := now |} in
      (<[EmbeddedServer.sessionKey session := sessionEntry]> sessionStore,
       sessionEntry, true)
  end.

(** One of [result.payloads]. *)
Record Payload := {
  p_text : option string;
  isError : bool
}.

(** [(result.payloads ?? []).filter(p => p.text && !p.isError)
      .map(p => p.text?.trim()).filter(Boolean)] *)
Definition texts (payloads : option (list Payload)) : list string :=
  List.filter (fun t => negb (String.eqb t ""))
    (map (fun p => Js.trim (Js.orElse (p_text p) ""))
       (List.filter (fun p => Js.truthy (p_text p) && negb (isError p))
          (default [] payloads))).

(** Lines 371-380: the text returned for the agent's payloads. *)
Definition replyText (payloads : option (list Payload)) (aborted : bool)
  : string :=
  let text := String.concat " " (texts payloads) in
  if String.eqb text "" then
    if aborted
    then "Sorry, I ran out of time on that one. What were you asking?"
    else "Hmm, I'm not sure what to say. Can you try again?"
  else text.

End EmbeddedAgent.

(** ** gateway-client.ts: more of what holds of the pending chats *)
Module GatewayInv.
Import GatewayClient.

(** The timer of a pending chat is armed, and its callback closes over the
    run of that chat. *)
Definition armedEntries (c : Client) : Prop :=
  forall rid chat,
    pendingChats c !! rid = Some chat -> timers c !! timeout chat = Some rid.

(** Every promise that [chat] has handed out is settled or has its timer
    armed. *)
Definition answerable (c : Client) : Prop :=
  forall p, p < fresh c -> is_Some (settled c !! p) \/ is_Some (timers c !! p).

(** A settlement that carries a flag carries a text. *)
Definition speakable (c : Client) : Prop :=
  forall p v,
    settled c !! p = Some v ->
    WebSocketServer.text v <> ""
    \/ (WebSocketServer.error v = None /\ WebSocketServer.aborted v = None).

(** All of it together. *)
Definition inv (c : Client) : Prop :=
  wf c /\ armedEntries c /\ answerable c /\ speakable c.

End GatewayInv.

(** ** gateway-client.ts: the socket, the handshake and the requests *)
Module GatewaySocket.
Import WebSocketServer.

(** [msg.payload]: the fields the client reads. *)
Record Payload := {
  p_type : option string;
  p_nonce : option string;
  p_agent : GatewayClient.AgentPayload
}.

(** A parsed frame from the gateway. [m_ok] is the truthiness of [msg.ok],
    [m_error] is [msg.error?.message]. *)
Record Msg := {
  m_type : option string;
  m_event : option string;
  m_id : option string;
  m_ok : bool;
  m_payload : option Payload;
  m_error : option string
}.

Definition isStr (o : option string) (s : string) : bool :=
  match o with
  | Some x => String.eqb x s
  | None => false
  end.

(** An entry of [pendingRequests]: the promise of the request and the
    handle of its timer. *)
Record PendingRequest := {
  rq_promise : nat;
  rq_timeout : nat
}.

Inductive RequestOutcome :=
| Resolved (payload : option Payload)
| Rejected (message : string).

Inductive ConnectOutcome :=
| ConnectResolved
| ConnectRejected (message : string).

(** What [send] writes to the socket. *)
Inductive Outgoing :=
| Request (id method : string)
| Handshake (id : string) (nonce : option string).

(** The state of a [GatewayClient]: the chat part modelled above, the
    [connected] flag, whether [ws] is in the OPEN state, [pendingRequests]
    with the settled request promises and the armed request timers (each
    with the id and method its callback closes over), the settled promises
    and armed timers of the [connect] calls, and what was sent. *)
Record Socket := {
  chats : GatewayClient.Client;
  connected : bool;
  wsOpen : bool;
  pendingRequests : gmap string PendingRequest;
  requestSettled : gmap nat RequestOutcome;
  requestTimers : gmap nat (string * string);
  requestFresh : nat;
  connectSettled : gmap nat ConnectOutcome;
  connectTimers : gset nat;
  connectFresh : nat;
  outbox : list Outgoing
}.

Definition newSocket : Socket :=
  {| chats := GatewayClient.newClient;
     connected := false;
     wsOpen := false;
     pendingRequests := ∅;
     requestSettled := ∅;
     requestTimers := ∅;
     requestFresh := 0;
     connectSettled := ∅;
     connectTimers := ∅;
     connectFresh := 0;
     outbox := [] |}.

Definition withChats (f : GatewayClient.Client -> GatewayClient.Client)
    (s : Socket) : Socket :=
  {| chats := f (chats s);
     connected := connected s;
     wsOpen := wsOpen s;
     pendingRequests := pendingRequests s;
     requestSettled := requestSettled s;
     requestTimers := requestTimers s;
     requestFresh := requestFresh s;
     connectSettled := connectSettled s;
     connectTimers := connectTimers s;
     connectFresh := connectFresh s;
     outbox := outbox s |}.

(** [send(msg)]: written only while the socket is open. *)
Definition send (o : Outgoing) (s : Socket) : Socket :=
  {| chats := chats s;
     connected := connected s;
     wsOpen := wsOpen s;
     pendingRequests := pendingRequests s;
     requestSettled := requestSettled s;
     requestTimers := requestTimers s;
     requestFresh := requestFresh s;
     connectSettled := connectSettled s;
     connectTimers := connectTimers s;
     connectFresh := connectFresh s;
     outbox := if wsOpen s then (outbox s ++ [o])%list else outbox s |}.

(** Settling the promise of a request; the first settlement stays. *)
Definition settleRequest (p : nat) (v : RequestOutcome) (s : Socket) : Socket :=
  match requestSettled s !! p with
  | Some _ => s
  | None =>
      {| chats := chats s;
         connected := connected s;
         wsOpen := wsOpen s;
         pendingRequests := pendingRequests s;
         requestSettled := <[p := v]> (requestSettled s);
         requestTimers := requestTimers s;
         requestFresh := requestFresh s;
         connectSettled := connectSettled s;
         connectTimers := connectTimers s;
         connectFresh := connectFresh s;
         outbox := outbox s |}
  end.

(** [clearTimeout(t); this.pendingRequests.delete(id)] *)
Definition forgetRequest (id : string) (t : nat) (s : Socket) : Socket :=
  {| chats := chats s;
     connected := connected s;
     wsOpen := wsOpen s;
     pendingRequests := delete id (pendingRequests s);
     requestSettled := requestSettled s;
     requestTimers := delete t (requestTimers s);
     requestFresh := requestFresh s;
     connectSettled := connectSettled s;
     connectTimers := connectTimers s;
     connectFresh := connectFresh s;
     outbox := outbox s |}.

(** Settling the promise of a [connect] call. *)
Definition settleConnect (k : nat) (v : ConnectOutcome) (s : Socket) : Socket :=
  match connectSettled s !! k with
  | Some _ => s
  | None =>
      {| chats := chats s;
         connected := connected s;
         wsOpen := wsOpen s;
         pendingRequests := pendingRequests s;
         requestSettled := requestSettled s;
         requestTimers := requestTimers s;
         requestFresh := requestFresh s;
         connectSettled := <[k := v]> (connectSettled s);
         connectTimers := connectTimers s;
         connectFresh := connectFresh s;
         outbox := outbox s |}
  end.

(** [clearTimeout(connectTimeout)], then [this.connected = b]. *)
Definition clearConnect (k : nat) (b : bool) (s : Socket) : Socket :=
  {| chats := chats s;
     connected := b;
     wsOpen := wsOpen s;
     pendingRequests := pendingRequests s;
     requestSettled := requestSettled s;
     requestTimers := requestTimers s;
     requestFresh := requestFresh s;
     connectSettled := connectSettled s;
     connectTimers := connectTimers s ∖ {[ k ]};
     connectFresh := connectFresh s;
     outbox := outbox s |}.

(** The executor of the promise of [request(method, params, timeoutMs)],
    with [id] the identifier drawn for it. *)
Definition awaitRequest (id method : string) (timeoutMs : Z) (s : Socket)
  : nat * Socket :=
  let h := requestFresh s in
  (h,
   send (Request id method)
     {| chats := chats s;
        connected := connected s;
        wsOpen := wsOpen s;
        pendingRequests :=
          <[id := {| rq_promise := h; rq_timeout := h |}]> (pendingRequests s);
        requestSettled := requestSettled s;
        requestTimers := <[h := (id, method)]> (requestTimers s);
        requestFresh := S h;
        connectSettled := connectSettled s;
        connectTimers := connectTimers s;
        connectFresh := connectFresh s;
        outbox := outbox s |}).

(** The timer callback of [request]. *)
Definition fireRequestTimeout (h : nat) (s : Socket) : Socket :=
  match requestTimers s !! h with
  | None => s
  | Some (id, method) =>
      settleRequest h (Rejected ("Request timeout: " ++ method))
        (forgetRequest id h s)
  end.

(** [msg.payload?.type] *)
Definition payloadType (msg : Msg) : option string :=
  match m_payload msg with
  | Some p => p_type p
  | None => None
  end.

(** [handleMessage(data, connectTimeout, connectResolve, connectReject)] of
    the [connect] call [k]; [data] is [None] when [JSON.parse] throws and
    [uuid] is the identifier drawn for a handshake. *)
Definition handleMessage (k : nat) (uuid : string) (data : option Msg)
    (s : Socket) : Socket :=
  match data with
  | None => s
  | Some msg =>
      if isStr (m_type msg) "event" && isStr (m_event msg) "connect.challenge" then
        send (Handshake uuid
                (match m_payload msg with
                 | Some p => p_nonce p
                 | None => None
                 end)) s
      else if isStr (m_type msg) "res"
              && isStr (payloadType msg) "hello-ok" then
        settleConnect k ConnectResolved (clearConnect k true s)
      else if isStr (m_type msg) "res" && negb (m_ok msg) then
        settleConnect k
          (ConnectRejected (Js.orElse (m_error msg) "Connection rejected"))
          (clearConnect k (connected s) s)
      else if isStr (m_type msg) "res" && Js.truthy (m_id msg) then
        let id := Js.orElse (m_id msg) "" in
        match pendingRequests s !! id with
        | Some pending =>
            settleRequest (rq_promise pending)
              (if m_ok msg then Resolved (m_payload msg)
               else Rejected (Js.orElse (m_error msg) "Request failed"))
              (forgetRequest id (rq_timeout pending) s)
        | None => s
        end
      else if isStr (m_type msg) "event" && isStr (m_event msg) "agent" then
        let payload :=
          match m_payload msg with
          | Some p => p_agent p
          | None =>
              {| GatewayClient.runId := None; GatewayClient.stream := None;
                 GatewayClient.data_text := None;
                 GatewayClient.data_phase := None |}
          end in
        withChats (GatewayClient.handleMessage (GatewayClient.AgentEvent payload))
                  s
      else s
  end.

(** [fullMessage] of [chat]. *)
Definition fullMessage (message : string) (systemContext : option string)
  : string :=
  if Js.truthy systemContext
  then "[Context: " ++ Js.orElse systemContext "" ++ "]" ++ Js.nl ++ Js.nl
       ++ message
  else message.

(** [chat] once [chat.send] has answered with [response]: [None] when it
    throws for want of a [runId], else the promise it returns. *)
Definition chatAfterSend (response : option Payload) (timeoutMs : Z)
    (s : Socket) : option (nat * Socket) :=
  let runId :=
    match response with
    | Some p => GatewayClient.runId (p_agent p)
    | None => None
    end in
  if Js.truthy runId then
    let ms := if (timeoutMs =? 0)%Z then 30000%Z else timeoutMs in
    Some (GatewayClient.fresh (chats s),
          withChats (fun c => snd (GatewayClient.awaitChat (Js.orElse runId "") ms c)) s)
  else None.

(** [disconnect()] *)
Definition disconnect (s : Socket) : Socket :=
  {| chats := chats s;
     connected := false;
     wsOpen := false;
     pendingRequests := pendingRequests s;
     requestSettled := requestSettled s;
     requestTimers := requestTimers s;
     requestFresh := requestFresh s;
     connectSettled := connectSettled s;
     connectTimers := connectTimers s;
     connectFresh := connectFresh s;
     outbox := outbox s |}.

(** [isConnected()] *)
Definition isConnected (s : Socket) : bool := connected s && wsOpen s.

(** One event-loop task on the socket. *)
Inductive Task :=
| TaskRequest (id method : string) (timeoutMs : Z)
| TaskRequestTimeout (h : nat)
| TaskFrame (k : nat) (uuid : string) (data : option Msg)
| TaskAwaitChat (runId : string) (timeoutMs : Z)
| TaskChatTimeout (h : nat)
| TaskDisconnect.

Definition runTask (t : Task) (s : Socket) : Socket :=
  match t with
  | TaskRequest id method ms => snd (awaitRequest id method ms s)
  | TaskRequestTimeout h => fireRequestTimeout h s
  | TaskFrame k uuid data => handleMessage k uuid data s
  | TaskAwaitChat r ms =>
      withChats (fun c => snd (GatewayClient.awaitChat r ms c)) s
  | TaskChatTimeout h => withChats (GatewayClient.fireTimeout h) s
  | TaskDisconnect => disconnect s
  end.

Definition runTasks (ts : list Task) (s : Socket) : Socket :=
  fold_left (fun s t => runTask t s) ts s.

(** What holds of the requests in every state the tasks produce. *)
Definition requestsWf (s : Socket) : Prop :=
  (forall h i, requestTimers s !! h = Some i ->
     requestSettled s !! h = None /\ h < requestFresh s)
  /\ (forall p v, requestSettled s !! p = Some v -> p < requestFresh s)
  /\ (forall id r, pendingRequests s !! id = Some r ->
        rq_promise r = rq_timeout r
        /\ exists method, requestTimers s !! rq_timeout r = Some (id, method)).

End GatewaySocket.

(** ** More sample calls *)
Module Sample.
Import Retell.

(** No allowlist: everyone may call. *)
Definition openCfg : RetellVoiceConfig :=
  {| allowFrom := [];
     greeting := "Hey! What's up?";
     responseModel := None;
     responseTimeoutMs := 0 |}.

(** The call details of a web call: no phone number on either side. *)
Definition webCall : Event := Fixture.callDetails None None None.

Definition sessionAt (url : string) : WebSocketServer.CallSession :=
  fst (WebSocketServer.handleConnection (Some url) "uuid-1").

Definition callFrom (n : string) : Event :=
  Fixture.callDetails (Some n) (Some "+15550001111") (Some "inbound").

(** A gateway that is connected and settles every chat with [r]. *)
Definition settling (r : WebSocketServer.ChatResponse)
  : WebSocketServer.Gateway :=
  {| WebSocketServer.isConnected := true;
     WebSocketServer.connectOk := true;
     WebSocketServer.chat := fun _ => Some r |}.

Definition silentTurn : Event := Fixture.turn 9 [Fixture.says "agent" "Hello"].

End Sample.

(** * Caller authorization *)
Section ConfigFacts.
Import Config.

Lemma stripNonPhone_kept (s : string) :
  stripNonPhone (stripNonPhone s) = stripNonPhone s.
Proof.
  induction s as [|c r IH]; simpl; [reflexivity|].
  destruct (keptChar c) eqn:K; simpl; [rewrite K, IH|]; auto.
Qed.

Lemma stripNonPhone_plus (s : string) :
  stripNonPhone ("+" ++ s) = "+" ++ stripNonPhone s.
Proof. reflexivity. Qed.

(** On a string that is already stripped, [normalizePhone] only decides on
    a prefix. *)
Lemma normalizePhone_stripped (n : string) :
  stripNonPhone n = n ->
  normalizePhone n =
    if negb (Js.startsWith n "+") && (10 <=? String.length n)%nat
    then
      if (String.length n =? 10)%nat then "+1" ++ n
      else if (String.length n =? 11)%nat && Js.startsWith n "1"
           then "+" ++ n
           else n
    else n.
Proof. intros E. unfold normalizePhone. rewrite E. reflexivity. Qed.

Lemma normalizePhone_leading_plus (n : string) :
  stripNonPhone n = n -> normalizePhone ("+" ++ n) = "+" ++ n.
Proof.
  intros E. unfold normalizePhone. rewrite stripNonPhone_plus, E. reflexivity.
Qed.

Lemma normalizePhone_fixed (x r : string) :
  r = normalizePhone x -> normalizePhone r = r.
Proof.
  pose proof (stripNonPhone_kept x) as K.
  intros Hr. unfold normalizePhone in Hr.
  set (n := stripNonPhone x) in *. revert Hr.
  destruct (negb (Js.startsWith n "+") && (10 <=? String.length n)%nat) eqn:G.
  - destruct (String.length n =? 10)%nat eqn:L10.
    + intros ->. change ("+1" ++ n) with ("+" ++ ("1" ++ n)).
      apply normalizePhone_leading_plus.
      change (String "1"%char (stripNonPhone n) = String "1"%char n).
      now rewrite K.
    + destruct ((String.length n =? 11)%nat && Js.startsWith n "1") eqn:L11.
      * intros ->. now apply normalizePhone_leading_plus.
      * intros ->. rewrite (normalizePhone_stripped n K), G, L10, L11.
        reflexivity.
  - intros ->. rewrite (normalizePhone_stripped n K), G. reflexivity.
Qed.

Lemma isAllowedCaller_iff (p : string) (L : list string) :
  isAllowedCaller p L = true <->
  L = [] \/ exists e, In e L /\ normalizePhone p = normalizePhone e.
Proof.
  unfold isAllowedCaller. destruct L as [|a L].
  - simpl. split; auto.
  - cbn [List.length Nat.eqb]. rewrite existsb_exists. split.
    + intros (e & He & Heq). right. exists e. split; [exact He|].
      now apply String.eqb_eq.
    + intros [H|(e & He & Heq)]; [discriminate|].
      exists e. split; [exact He|]. now apply String.eqb_eq.
Qed.

End ConfigFacts.

(** C1: [isAllowedCaller] lets everyone in on an empty allowlist and
    otherwise exactly the numbers whose normalized form equals the
    normalized form of some entry; the empty list lets every caller in and
    a ten-digit entry matches its E.164 spelling. *)
Theorem isAllowedCaller_exact_match (p : string) (L : list string) :
  (Config.isAllowedCaller p L = true <->
   L = [] \/
   exists e, In e L /\ Config.normalizePhone p = Config.normalizePhone e)
  /\ Config.isAllowedCaller p [] = true
  /\ Config.isAllowedCaller "+15551234567" ["5551234567"] = true.
Proof.
  split; [apply isAllowedCaller_iff|]. split; reflexivity.
Qed.

Example isAllowedCaller_no_prefix_match :
  Config.isAllowedCaller "+1555123456" ["+15551234567"] = false
  /\ Config.isAllowedCaller "+155512345678" ["+15551234567"] = false.
Proof. split; reflexivity. Qed.

(** C8: [normalizePhone] is idempotent. *)
Theorem normalizePhone_idempotent (x : string) :
  Config.normalizePhone (Config.normalizePhone x) = Config.normalizePhone x.
Proof. now apply normalizePhone_fixed with (x := x). Qed.

(** ** The code against the worded normalization rule *)
Section NormalizeSpec.
Import Config.

Lemma stripNonPhone_digitsOnly (s : string) :
  hasPlus (stripNonPhone s) = false -> stripNonPhone s = digitsOnly s.
Proof.
  induction s as [|c r IH]; simpl; [reflexivity|].
  unfold keptChar. destruct (Js.isDigit c) eqn:D; simpl.
  - intros H. apply orb_false_iff in H as [_ H]. rewrite IH; auto.
  - destruct (Ascii.eqb c "+") eqn:P; simpl; [|exact IH].
    rewrite P. discriminate.
Qed.

Lemma stripLeadingPlus_agrees (s : string) :
  innerPlus s = false -> stripLeadingPlus s = stripNonPhone s.
Proof.
  unfold innerPlus. induction s as [|c r IH]; simpl; [reflexivity|].
  unfold keptChar. destruct (Js.isDigit c) eqn:D; simpl.
  - intros H. now rewrite stripNonPhone_digitsOnly.
  - destruct (Ascii.eqb c "+") eqn:P; simpl; [|exact IH].
    intros H. now rewrite stripNonPhone_digitsOnly.
Qed.

Lemma hasPlus_startsWith (n : string) :
  match n with EmptyString => false | String _ r => hasPlus r end = false ->
  hasPlus n = Js.startsWith n "+".
Proof.
  destruct n as [|c r]; simpl; [reflexivity|]. intros ->.
  rewrite orb_false_r, andb_true_r. apply Ascii.eqb_sym.
Qed.

(** Where every [+] that survives stripping is the leading one, the code
    computes the worded rule. *)
Lemma normalizePhone_meets_spec (p : string) :
  innerPlus p = false -> normalizePhone p = normalize_spec p.
Proof.
  intros H. unfold normalize_spec, normalizePhone.
  rewrite (stripLeadingPlus_agrees p H).
  unfold innerPlus in H. apply hasPlus_startsWith in H. rewrite H.
  set (n := stripNonPhone p).
  destruct (Js.startsWith n "+"); simpl; [reflexivity|].
  destruct (String.length n =? 10)%nat eqn:L10.
  - apply Nat.eqb_eq in L10. rewrite L10. reflexivity.
  - destruct (String.length n =? 11)%nat eqn:L11; simpl.
    + apply Nat.eqb_eq in L11. rewrite L11. reflexivity.
    + now destruct (String.length n) as [|[|[|[|[|[|[|[|[|[|k]]]]]]]]]].
Qed.

End NormalizeSpec.

(** C3: on ["555+1234567"] the code keeps the inner [+] and returns the
    eleven characters unchanged, where the worded rule strips the [+] and
    yields the E.164 form of the ten digits. *)
Theorem normalizePhone_keeps_inner_plus :
  Config.normalizePhone "555+1234567" = "555+1234567"
  /\ Config.normalize_spec "555+1234567" = "+15551234567"
  /\ Config.isAllowedCaller "555+1234567" ["5551234567"] = false.
Proof. repeat split; reflexivity. Qed.

Example normalizePhone_dashes :
  Config.normalizePhone "(555) 123-4567" = "+15551234567".
Proof. reflexivity. Qed.

Example normalizePhone_eleven :
  Config.normalizePhone "1-555-123-4567" = "+15551234567".
Proof. reflexivity. Qed.

Example normalizePhone_e164 :
  Config.normalizePhone "+44 20 7946 0958" = "+442079460958".
Proof. reflexivity. Qed.

Example normalizePhone_short : Config.normalizePhone "911" = "911".
Proof. reflexivity. Qed.

Example normalizePhone_double_plus :
  Config.normalizePhone "++15551234567" = "++15551234567"
  /\ Config.normalize_spec "++15551234567" = "+15551234567".
Proof. split; reflexivity. Qed.

(** * Substring search *)
Section JsFacts.

Lemma append_cons (a : ascii) (s t : string) :
  String a s ++ t = String a (s ++ t).
Proof. reflexivity. Qed.

Lemma append_empty_inv (s t : string) :
  s ++ t = EmptyString -> s = EmptyString /\ t = EmptyString.
Proof. destruct s; [auto|discriminate]. Qed.

Lemma startsWith_iff (s p : string) :
  Js.startsWith s p = true <-> exists post, s = p ++ post.
Proof.
  revert s. induction p as [|a p IH]; intros s; simpl.
  - split; [intros _; now exists s|reflexivity].
  - destruct s as [|b s].
    + split; [discriminate|intros [post H]; discriminate].
    + rewrite andb_true_iff, Ascii.eqb_eq, IH. split.
      * intros [-> [post ->]]. now exists post.
      * intros [post H]. rewrite append_cons in H. injection H as -> ->.
        split; [reflexivity|now exists post].
Qed.

Lemma includes_iff (s t : string) :
  Js.includes s t = true <-> exists pre post, s = pre ++ t ++ post.
Proof.
  induction s as [|c r IH]; simpl; rewrite orb_true_iff, startsWith_iff.
  - split.
    + intros [[post H]|H]; [|discriminate]. now exists EmptyString, post.
    + intros (pre & post & H). left. symmetry in H.
      apply append_empty_inv in H as [-> H]. exists post. now rewrite H.
  - rewrite IH. split.
    + intros [[post H]|(pre & post & H)].
      * now exists EmptyString, post.
      * exists (String c pre), post. now rewrite append_cons, H.
    + intros (pre & post & H). destruct pre as [|c' pre].
      * left. now exists post.
      * right. rewrite append_cons in H. injection H as _ ->.
        now exists pre, post.
Qed.

Lemma shouldEndCall_iff (r : string) :
  Retell.shouldEndCall r = true <->
  exists phrase, In phrase Retell.farewells /\
    exists pre post, Js.toLowerCase r = pre ++ phrase ++ post.
Proof.
  unfold Retell.shouldEndCall, Retell.farewells.
  rewrite !orb_true_iff, !includes_iff. simpl. split.
  - intros [[[H|H]|H]|H]; eauto 10.
  - intros (ph & [<-|[<-|[<-|[<-|[]]]]] & H); auto.
Qed.

Lemma sliceLast_length {A} (n : nat) (l : list A) :
  List.length (Js.sliceLast n l) = Nat.min n (List.length l).
Proof. unfold Js.sliceLast. rewrite length_drop. lia. Qed.

Lemma sliceLast_suffix {A} (n : nat) (l : list A) :
  exists older, l = (older ++ Js.sliceLast n l)%list.
Proof.
  exists (take (List.length l - n) l). unfold Js.sliceLast.
  now rewrite take_drop.
Qed.

Lemma windowOf_length (t : list Retell.Utterance) :
  List.length (Retell.windowOf t) <= 10.
Proof.
  unfold Retell.windowOf. rewrite length_map, sliceLast_length. lia.
Qed.

Lemma isType_some (e : Retell.Event) (s t : string) :
  Retell.interaction_type e = Some s -> Retell.isType e t = String.eqb s t.
Proof. unfold Retell.isType. now intros ->. Qed.

Lemma allowFrom_nonempty (L : list string) :
  L <> [] -> (0 <? List.length L)%nat = true.
Proof. destruct L; [congruence|reflexivity]. Qed.

End JsFacts.

Example shouldEndCall_have_a_good :
  Retell.shouldEndCall "Okay, have a good one!" = true.
Proof. reflexivity. Qed.

Example shouldEndCall_weather :
  Retell.shouldEndCall "Sure, here's the weather." = false.
Proof. reflexivity. Qed.

Example shouldEndCall_upper :
  Retell.shouldEndCall "GOODBYE" = true.
Proof. reflexivity. Qed.

(** * The call server, gateway variant *)
Section ServerFacts.
Import Retell WebSocketServer.

Lemma isTurn_dispatch (e : Event) :
  isTurn e ->
  isType e "call_details" = false /\ isType e "ping_pong" = false
  /\ isType e "response_required" || isType e "reminder_required" = true.
Proof.
  intros [H|H]; rewrite !(isType_some e _ _ H); repeat split; reflexivity.
Qed.

(** A [call_details] event is decided on [numberToCheck] alone. *)
Lemma handleMessage_call_details cfg gw session event :
  interaction_type event = Some "call_details" ->
  handleMessage (Some cfg) gw session (Some event) =
    let call := callOrEmpty (call event) in
    if Config.isAllowedCaller (Js.orElse (numberToCheck call) "") (allowFrom cfg)
    then (authorize session (phoneForSession call)
            ("retell:" ++ Config.normalizePhone
                            (Js.orElse (phoneForSession call) (callId session))),
          [Send (ResponseFrame (Some 0%Z) (greeting cfg) true false)])
    else (session, [Send rejection]).
Proof.
  intros H. unfold handleMessage. rewrite (isType_some _ _ _ H).
  change (String.eqb "call_details" "call_details") with true. cbv zeta.
  now destruct (Config.isAllowedCaller _ _).
Qed.

Lemma numberToCheck_inbound (c : CallDetails) :
  direction c = None \/ direction c = Some "inbound" ->
  numberToCheck c = from_number c.
Proof. unfold numberToCheck. now intros [-> | ->]. Qed.

Lemma numberToCheck_outbound (c : CallDetails) :
  direction c = Some "outbound" -> numberToCheck c = to_number c.
Proof. unfold numberToCheck. now intros ->. Qed.

(** A turn that passes the gate and carries user text goes to the backend. *)
Lemma handleMessage_turn cfg gw session event last :
  isTurn event ->
  authorized session = true \/ allowFrom cfg = [] ->
  lastUserMessage (default [] (ev_transcript event)) = Some last ->
  Js.truthy (u_content last) = true ->
  handleMessage (Some cfg) gw session (Some event) =
    let session' :=
      setTranscript session (windowOf (default [] (ev_transcript event))) in
    match generateAgentResponse (Some cfg) gw session'
            (Js.orElse (u_content last) "") with
    | (calls, Some response) =>
        (session',
         (calls ++ [Send (ResponseFrame (response_id event) response true
                            (shouldEndCall response))])%list)
    | (calls, None) => (session', (calls ++ [Send (apology event)])%list)
    end.
Proof.
  intros T G L C. destruct (isTurn_dispatch event T) as (H1 & H2 & H3).
  unfold handleMessage. rewrite H1, H2, H3.
  replace (negb (authorized session) && (0 <? List.length (allowFrom cfg))%nat)
    with false by (destruct G as [-> | ->]; [reflexivity|symmetry; apply andb_false_r]).
  cbv zeta. rewrite L, C. reflexivity.
Qed.

Lemma handleMessage_transcript_le ctx gw session data :
  List.length (transcript session) <= 10 ->
  List.length (transcript (fst (handleMessage ctx gw session data))) <= 10.
Proof.
  intros H. unfold handleMessage.
  repeat (case_match; simpl; try assumption); apply windowOf_length.
Qed.

Lemma runCall_transcript_le steps session :
  List.length (transcript session) <= 10 ->
  List.length (transcript (runCall session steps)) <= 10.
Proof.
  unfold runCall. revert session.
  induction steps as [|[[ctx gw] data] steps IH]; intros session H; simpl.
  - exact H.
  - apply IH. now apply handleMessage_transcript_le.
Qed.

(** Each step either keeps the window or replaces it by the tagged last
    entries of the transcript the event carries. *)
Lemma handleMessage_transcript_source ctx gw session data :
  transcript (fst (handleMessage ctx gw session data)) = transcript session
  \/ exists event, data = Some event /\
       transcript (fst (handleMessage ctx gw session data)) =
         map tagEntry (Js.sliceLast 10 (default [] (ev_transcript event))).
Proof.
  unfold handleMessage.
  repeat (case_match; simpl; auto); right; eexists; split; reflexivity.
Qed.

End ServerFacts.

Section ServerClaims.
Import Retell WebSocketServer.

(** C5: while the session is not authorized and the allowlist is not
    empty, a [response_required] or [reminder_required] event is answered
    with exactly one holding frame that echoes the event's [response_id],
    the session is left as it was, and the backend is not invoked. *)
Theorem holding_message_before_authorization cfg gw session event :
  authorized session = false ->
  allowFrom cfg <> [] ->
  isTurn event ->
  handleMessage (Some cfg) gw session (Some event) =
    (session,
     [Send (ResponseFrame (response_id event) "One moment please..."
              true false)])
  /\ backendCalls (snd (handleMessage (Some cfg) gw session (Some event))) = 0.
Proof.
  intros A L T. destruct (isTurn_dispatch event T) as (H1 & H2 & H3).
  assert (handleMessage (Some cfg) gw session (Some event) =
          (session, [Send (holding event)])) as E.
  { unfold handleMessage. rewrite H1, H2, H3, A, (allowFrom_nonempty _ L).
    reflexivity. }
  rewrite E. split; reflexivity.
Qed.

Lemma holding_message_before_authorization_witness :
  handleMessage (Some Fixture.cfg) (Fixture.answering "Hello")
    Fixture.freshSession (Some Fixture.weatherTurn) =
  (Fixture.freshSession,
   [Send (ResponseFrame (Some 7%Z) "One moment please..." true false)]).
Proof.
  apply (holding_message_before_authorization Fixture.cfg
           (Fixture.answering "Hello") Fixture.freshSession
           Fixture.weatherTurn).
  - reflexivity.
  - discriminate.
  - left. reflexivity.
Defined.

(** C6: when a turn reaches the backend and the reply is [r], the frame
    sent carries [r] and its [end_call] flag is true exactly when the
    lowercased [r] contains one of "goodbye", "talk to you later",
    "bye for now", "have a good". *)
Theorem end_call_iff_farewell cfg gw session event last r :
  isTurn event ->
  authorized session = true \/ allowFrom cfg = [] ->
  lastUserMessage (default [] (ev_transcript event)) = Some last ->
  Js.truthy (u_content last) = true ->
  snd (generateAgentResponse (Some cfg) gw
         (setTranscript session (windowOf (default [] (ev_transcript event))))
         (Js.orElse (u_content last) "")) = Some r ->
  (exists b,
     framesOf (snd (handleMessage (Some cfg) gw session (Some event))) =
       [ResponseFrame (response_id event) r true b]
     /\ (b = true <->
         exists phrase, In phrase farewells /\
           exists pre post, Js.toLowerCase r = pre ++ phrase ++ post)).
Proof.
  intros T G L C R. exists (shouldEndCall r). split; [|apply shouldEndCall_iff].
  rewrite (handleMessage_turn cfg gw session event last T G L C). cbv zeta.
  destruct (generateAgentResponse _ _ _ _) as [calls [response|]] eqn:E;
    simpl in R; [|discriminate].
  injection R as ->. simpl. unfold framesOf. rewrite omap_app.
  assert (omap (fun e => match e with Send f => Some f | _ => None end) calls
          = []) as ->; [|reflexivity].
  unfold generateAgentResponse in E.
  repeat (case_match; simplify_eq); reflexivity.
Qed.

Lemma end_call_iff_farewell_witness :
  exists b,
    framesOf (snd (handleMessage (Some Fixture.cfg)
                     (Fixture.answering "Okay, have a good one!")
                     Fixture.authorizedSession (Some Fixture.weatherTurn))) =
      [ResponseFrame (Some 7%Z) "Okay, have a good one!" true b]
    /\ (b = true <->
        exists phrase, In phrase farewells /\
          exists pre post,
            Js.toLowerCase "Okay, have a good one!" = pre ++ phrase ++ post).
Proof.
  apply (end_call_iff_farewell Fixture.cfg
           (Fixture.answering "Okay, have a good one!")
           Fixture.authorizedSession Fixture.weatherTurn
           (Fixture.says "user" "That is all, thanks.")).
  - left. reflexivity.
  - left. reflexivity.
  - reflexivity.
  - reflexivity.
  - reflexivity.
Defined.

Example end_call_have_a_good :
  framesOf (snd (handleMessage (Some Fixture.cfg)
                   (Fixture.answering "Okay, have a good one!")
                   Fixture.authorizedSession (Some Fixture.weatherTurn))) =
    [ResponseFrame (Some 7%Z) "Okay, have a good one!" true true].
Proof. reflexivity. Qed.

Example end_call_weather :
  framesOf (snd (handleMessage (Some Fixture.cfg)
                   (Fixture.answering "Sure, here's the weather.")
                   Fixture.authorizedSession (Some Fixture.weatherTurn))) =
    [ResponseFrame (Some 7%Z) "Sure, here's the weather." true false].
Proof. reflexivity. Qed.

(** C10: a [call_details] event whose number the allowlist denies is
    answered with the rejection frame ([end_call] true) and the session is
    returned as it was; on a fresh session [authorized] is still false,
    the key is still the call-scoped one, no number and no transcript are
    recorded. *)
Theorem denied_call_details_leaves_session cfg gw session event :
  interaction_type event = Some "call_details" ->
  Config.isAllowedCaller
    (Js.orElse (numberToCheck (callOrEmpty (call event))) "")
    (allowFrom cfg) = false ->
  handleMessage (Some cfg) gw session (Some event) =
    (session,
     [Send (ResponseFrame (Some 0%Z)
              "Sorry, this number is not authorized. Goodbye." true true)])
  /\ allowFrom cfg <> []
  /\ forall url uuid,
       session = fst (handleConnection url uuid) ->
       let s' := fst (handleMessage (Some cfg) gw session (Some event)) in
       authorized s' = false
       /\ sessionKey s' = "retell:" ++ callId s'
       /\ fromNumber s' = None
       /\ transcript s' = [].
Proof.
  intros T D.
  assert (handleMessage (Some cfg) gw session (Some event) =
          (session, [Send rejection])) as E.
  { rewrite (handleMessage_call_details cfg gw session event T). cbv zeta.
    now rewrite D. }
  split; [exact E|]. split.
  - intros N. rewrite N in D. discriminate.
  - intros url uuid ->. rewrite E. repeat split.
Qed.

Lemma denied_call_details_leaves_session_witness :
  handleMessage (Some Fixture.cfg) (Fixture.answering "Hello")
    Fixture.freshSession (Some Fixture.strangerCall) =
  (Fixture.freshSession,
   [Send (ResponseFrame (Some 0%Z)
            "Sorry, this number is not authorized. Goodbye." true true)]).
Proof.
  apply (denied_call_details_leaves_session Fixture.cfg
           (Fixture.answering "Hello") Fixture.freshSession
           Fixture.strangerCall); reflexivity.
Defined.

End ServerClaims.

(** * The call server, embedded-agent variant *)
Section EmbeddedFacts.
Import Retell.

Lemma embedded_handleMessage_transcript_le gen ctx session data :
  List.length (EmbeddedServer.transcript session) <= 10 ->
  List.length (EmbeddedServer.transcript
                 (fst (EmbeddedServer.handleMessage gen ctx session data)))
  <= 10.
Proof.
  intros H. unfold EmbeddedServer.handleMessage.
  repeat (case_match; simpl; try assumption); apply windowOf_length.
Qed.

Lemma embedded_runCall_transcript_le steps session :
  List.length (EmbeddedServer.transcript session) <= 10 ->
  List.length (EmbeddedServer.transcript
                 (EmbeddedServer.runCall session steps)) <= 10.
Proof.
  unfold EmbeddedServer.runCall. revert session.
  induction steps as [|[[gen ctx] data] steps IH]; intros session H; simpl.
  - exact H.
  - apply IH. now apply embedded_handleMessage_transcript_le.
Qed.

Lemma embedded_handleMessage_transcript_source gen ctx session data :
  EmbeddedServer.transcript
    (fst (EmbeddedServer.handleMessage gen ctx session data))
  = EmbeddedServer.transcript session
  \/ exists event, data = Some event /\
       EmbeddedServer.transcript
         (fst (EmbeddedServer.handleMessage gen ctx session data)) =
         map tagEntry (Js.sliceLast 10 (default [] (ev_transcript event))).
Proof.
  unfold EmbeddedServer.handleMessage.
  repeat (case_match; simpl; auto); right; eexists; split; reflexivity.
Qed.

End EmbeddedFacts.

(** C7: the transcript of a session is empty when the connection opens,
    every step either keeps it or assigns the tagged last ten entries (at
    most) of the transcript the event carries, and it holds at most ten
    entries after any sequence of inbound frames, in both variants of the
    server. *)
Theorem transcript_window_bounded
    (url : option string) (uuid uuid' : string)
    (steps : list WebSocketServer.Step) (steps' : list EmbeddedServer.Step) :
  WebSocketServer.transcript
    (fst (WebSocketServer.handleConnection url uuid)) = []
  /\ EmbeddedServer.transcript
       (fst (EmbeddedServer.handleConnection url uuid uuid')) = []
  /\ (forall ctx gw s data,
        let s' := fst (WebSocketServer.handleMessage ctx gw s data) in
        WebSocketServer.transcript s' = WebSocketServer.transcript s
        \/ exists event older,
             data = Some event
             /\ default [] (Retell.ev_transcript event) =
                  (older ++ Js.sliceLast 10
                              (default [] (Retell.ev_transcript event)))%list
             /\ WebSocketServer.transcript s' =
                  map Retell.tagEntry
                    (Js.sliceLast 10 (default [] (Retell.ev_transcript event))))
  /\ List.length
       (WebSocketServer.transcript
          (WebSocketServer.runCall
             (fst (WebSocketServer.handleConnection url uuid)) steps)) <= 10
  /\ List.length
       (EmbeddedServer.transcript
          (EmbeddedServer.runCall
             (fst (EmbeddedServer.handleConnection url uuid uuid')) steps'))
     <= 10.
Proof.
  split; [reflexivity|]. split; [reflexivity|]. split; [|split].
  - intros ctx gw s data s'.
    destruct (handleMessage_transcript_source ctx gw s data)
      as [H|(event & -> & H)]; [now left|right].
    destruct (sliceLast_suffix 10 (default [] (Retell.ev_transcript event)))
      as [older E].
    exists event, older. split; [reflexivity|]. split; [exact E|exact H].
  - apply runCall_transcript_le. simpl. lia.
  - apply embedded_runCall_transcript_le. simpl. lia.
Qed.

Example transcript_window_slides :
  let long := map (fun c => Fixture.says "user" c)
                  ["1"; "2"; "3"; "4"; "5"; "6"; "7"; "8"; "9"; "10"; "11"; "12"] in
  map Retell.content
      (WebSocketServer.transcript
         (fst (WebSocketServer.handleMessage (Some Fixture.cfg)
                 (Fixture.answering "Hello") Fixture.authorizedSession
                 (Some (Fixture.turn 3 long))))) =
  ["3"; "4"; "5"; "6"; "7"; "8"; "9"; "10"; "11"; "12"].
Proof. reflexivity. Qed.

(** The gateway variant submits the caller's number for an inbound call
    and the dialed number for an outbound one. *)
Lemma call_details_checks_numberToCheck cfg gw session event :
  Retell.interaction_type event = Some "call_details" ->
  let c := Retell.callOrEmpty (Retell.call event) in
  (Retell.direction c = None \/ Retell.direction c = Some "inbound" ->
   WebSocketServer.numberToCheck c = Retell.from_number c)
  /\ (Retell.direction c = Some "outbound" ->
      WebSocketServer.numberToCheck c = Retell.to_number c)
  /\ (snd (WebSocketServer.handleMessage (Some cfg) gw session (Some event)) =
        [WebSocketServer.Send Retell.rejection]
      <-> Config.isAllowedCaller
            (Js.orElse (WebSocketServer.numberToCheck c) "")
            (Retell.allowFrom cfg) = false).
Proof.
  intros T c. split; [apply numberToCheck_inbound|].
  split; [apply numberToCheck_outbound|].
  rewrite (handleMessage_call_details cfg gw session event T). cbv zeta.
  fold c. unfold Retell.rejection.
  destruct (Config.isAllowedCaller _ _); simpl; split; congruence.
Qed.

(** C2: in the embedded-agent variant an outbound call to an allowlisted
    number, placed from a line that is not on the allowlist, is rejected:
    the check is made on [from_number]. The gateway variant accepts the
    same call on [to_number]. *)
Theorem embedded_outbound_checks_from_number
    (gen : EmbeddedServer.CallSession -> string -> option string)
    (s : EmbeddedServer.CallSession)
    (gw : WebSocketServer.Gateway) (s' : WebSocketServer.CallSession) :
  EmbeddedServer.handleMessage gen (Some Fixture.cfg) s
    (Some Fixture.outboundCall) =
    (EmbeddedServer.setFromNumber s (Some "+15550001111"),
     [EmbeddedServer.Send Retell.rejection])
  /\ WebSocketServer.handleMessage (Some Fixture.cfg) gw s'
       (Some Fixture.outboundCall) =
     (WebSocketServer.authorize s' (Some "+15551234567") "retell:+15551234567",
      [WebSocketServer.Send
         (Retell.ResponseFrame (Some 0%Z) "Hey! What's up?" true false)]).
Proof. split; reflexivity. Qed.

(** * The gateway client *)
Section ClientFacts.
Import WebSocketServer GatewayClient.

Lemma wf_newClient : wf newClient.
Proof.
  unfold wf. split_and!; simpl; intros *; rewrite lookup_empty; discriminate.
Qed.

Lemma wf_awaitChat rid ms c : wf c -> wf (snd (awaitChat rid ms c)).
Proof.
  intros (T & TF & SF & P). unfold wf. split_and!; simpl.
  - intros h r. rewrite lookup_insert_Some. intros [[<- _]|[_ H]]; [|eauto].
    destruct (settled c !! fresh c) eqn:E; [|reflexivity].
    apply SF in E. lia.
  - intros h r. rewrite lookup_insert_Some. intros [[<- _]|[_ H]]; [lia|].
    apply TF in H. lia.
  - intros p v H. apply SF in H. lia.
  - intros r chat. rewrite lookup_insert_Some.
    intros [[_ <-]|[_ H]]; simpl; [lia|]. apply P in H. lia.
Qed.

(** Forgetting a chat and disarming a timer keep the state well formed. *)
Lemma wf_forget rid h c : wf c -> wf (deleteChat rid (clearTimeout h c)).
Proof.
  intros (T & TF & SF & P). unfold wf. split_and!; simpl.
  - intros h' r. rewrite lookup_delete_Some. intros [_ H]. eauto.
  - intros h' r. rewrite lookup_delete_Some. intros [_ H]. eauto.
  - exact SF.
  - intros r chat. rewrite lookup_delete_Some. intros [_ H]. eauto.
Qed.

Lemma wf_resolvePromise p v c :
  wf c -> timers c !! p = None -> p < fresh c -> wf (resolvePromise p v c).
Proof.
  intros W N F. unfold resolvePromise.
  destruct (settled c !! p) eqn:E; [exact W|].
  destruct W as (T & TF & SF & P). unfold wf. split_and!; simpl.
  - intros h r H. rewrite lookup_insert_ne; [eauto|]. congruence.
  - exact TF.
  - intros q w. rewrite lookup_insert_Some. intros [[<- _]|[_ H]]; eauto.
  - exact P.
Qed.

Lemma wf_fireTimeout h c : wf c -> wf (fireTimeout h c).
Proof.
  intros W. unfold fireTimeout. destruct (timers c !! h) as [rid|] eqn:E;
    [|exact W].
  apply wf_resolvePromise.
  - now apply wf_forget.
  - simpl. apply lookup_delete_eq.
  - simpl. destruct W as (_ & TF & _). eauto.
Qed.

(** Replacing the chunks of a pending chat. *)
Lemma wf_setChat rid chat chat' c :
  wf c -> pendingChats c !! rid = Some chat ->
  resolve chat' = resolve chat -> timeout chat' = timeout chat ->
  wf {| pendingChats := <[rid := chat']> (pendingChats c);
        settled := settled c; timers := timers c; fresh := fresh c |}.
Proof.
  intros (T & TF & SF & P) E R1 R2. destruct (P _ _ E) as [RT RF].
  unfold wf. split_and!; simpl; eauto.
  intros r ch. rewrite lookup_insert_Some.
  intros [[_ <-]|[_ H]]; [split; congruence|eauto].
Qed.

(** Completing a pending chat. *)
Lemma wf_complete rid chat v c :
  wf c -> pendingChats c !! rid = Some chat ->
  wf (resolvePromise (resolve chat) v
        (deleteChat rid (clearTimeout (timeout chat) c))).
Proof.
  intros W E. destruct (proj2 (proj2 (proj2 W)) _ _ E) as [RT RF].
  apply wf_resolvePromise.
  - now apply wf_forget.
  - simpl. rewrite RT. apply lookup_delete_eq.
  - exact RF.
Qed.

Lemma wf_handleMessage msg c : wf c -> wf (handleMessage msg c).
Proof.
  intros W. destruct msg as [payload|]; [|exact W]. simpl.
  destruct (runId payload) as [rid|]; [|exact W].
  destruct (String.eqb rid ""); [exact W|].
  destruct (pendingChats c !! rid) as [chat|] eqn:E; [|exact W].
  match goal with
  | |- context [<[rid := ?x]> (pendingChats c)] => set (chat' := x)
  end.
  assert (resolve chat' = resolve chat /\ timeout chat' = timeout chat)
    as [R1 R2] by (subst chat'; now destruct (_ && _)).
  pose proof (wf_setChat rid chat chat' c W E R1 R2) as W1.
  clearbody chat'.
  destruct (_ && _); [|exact W1].
  destruct (isFinal _); [|exact W1].
  apply wf_complete; [exact W1|]. simpl. apply lookup_insert_eq.
Qed.

Lemma wf_runTask t c : wf c -> wf (runTask t c).
Proof.
  destruct t as [rid ms|h|msg];
    [apply (wf_awaitChat rid ms)|apply wf_fireTimeout|apply wf_handleMessage].
Qed.

Lemma wf_runTasks ts c : wf c -> wf (runTasks ts c).
Proof.
  unfold runTasks. revert c.
  induction ts as [|t ts IH]; intros c W; simpl; [exact W|].
  apply IH. now apply wf_runTask.
Qed.

(** A promise keeps its first settlement. *)
Lemma settled_resolvePromise p v c q w :
  settled c !! q = Some w -> settled (resolvePromise p v c) !! q = Some w.
Proof.
  intros H. unfold resolvePromise. destruct (settled c !! p) eqn:E; [exact H|].
  simpl. rewrite lookup_insert_ne; [exact H|]. congruence.
Qed.

Lemma settled_runTask t c q w :
  settled c !! q = Some w -> settled (runTask t c) !! q = Some w.
Proof.
  intros H. destruct t as [rid ms|h|[payload|]]; simpl; try exact H.
  - unfold fireTimeout. destruct (timers c !! h); [|exact H].
    now apply settled_resolvePromise.
  - repeat (case_match; try exact H); now apply settled_resolvePromise.
Qed.

Lemma settled_runTasks ts c q w :
  settled c !! q = Some w -> settled (runTasks ts c) !! q = Some w.
Proof.
  unfold runTasks. revert c.
  induction ts as [|t ts IH]; intros c H; simpl; [exact H|].
  apply IH. now apply settled_runTask.
Qed.

(** An [agent] event for a run that is not pending changes nothing. *)
Lemma handleMessage_not_pending payload rid c :
  runId payload = Some rid -> pendingChats c !! rid = None ->
  handleMessage (AgentEvent payload) c = c.
Proof.
  intros R N. simpl. rewrite R. destruct (String.eqb rid ""); [reflexivity|].
  now rewrite N.
Qed.

End ClientFacts.

(** C4: when the timer of a chat fires while it is still armed (no
    completion has cleared it), the promise of that chat is fulfilled, not
    rejected, with the fixed text and [aborted: true]; the entry of its run
    is gone from [pendingChats], so that an [agent] event for that run
    leaves the client as it is, and nothing that happens later changes the
    settlement. *)
Theorem chat_timeout_resolves_aborted
    (ts : list GatewayClient.Task) (h : nat) (rid : string) :
  let c := GatewayClient.runTasks ts GatewayClient.newClient in
  GatewayClient.timers c !! h = Some rid ->
  let c' := GatewayClient.fireTimeout h c in
  GatewayClient.settled c !! h = None
  /\ GatewayClient.settled c' !! h =
       Some {| WebSocketServer.text := "Sorry, I took too long. Can you try again?";
               WebSocketServer.error := None;
               WebSocketServer.aborted := Some true |}
  /\ GatewayClient.pendingChats c' !! rid = None
  /\ (forall payload,
        GatewayClient.runId payload = Some rid ->
        GatewayClient.handleMessage (GatewayClient.AgentEvent payload) c' = c')
  /\ (forall later,
        GatewayClient.settled (GatewayClient.runTasks later c') !! h =
          GatewayClient.settled c' !! h).
Proof.
  intros c A c'.
  assert (GatewayClient.wf c) as W
    by apply wf_runTasks, wf_newClient.
  assert (GatewayClient.settled c !! h = None) as S
    by (destruct W as (T & _); eauto).
  assert (GatewayClient.settled c' !! h = Some GatewayClient.tookTooLong) as S'.
  { subst c'. unfold GatewayClient.fireTimeout. rewrite A.
    unfold GatewayClient.resolvePromise. simpl. rewrite S. simpl.
    apply lookup_insert_eq. }
  assert (GatewayClient.pendingChats c' !! rid = None) as P'.
  { subst c'. unfold GatewayClient.fireTimeout. rewrite A.
    unfold GatewayClient.resolvePromise. simpl. rewrite S. simpl.
    apply lookup_delete_eq. }
  repeat split; auto.
  - intros payload R. now apply handleMessage_not_pending with (rid := rid).
  - intros later. rewrite S'. now apply settled_runTasks.
Qed.

Lemma chat_timeout_resolves_aborted_witness :
  let c' :=
    GatewayClient.fireTimeout 0
      (GatewayClient.runTasks [GatewayClient.TaskAwaitChat "run-1" 30000]
         GatewayClient.newClient) in
  GatewayClient.settled c' !! 0 =
    Some {| WebSocketServer.text := "Sorry, I took too long. Can you try again?";
            WebSocketServer.error := None;
            WebSocketServer.aborted := Some true |}
  /\ GatewayClient.pendingChats c' !! "run-1" = None.
Proof.
  intros c'.
  destruct (chat_timeout_resolves_aborted
              [GatewayClient.TaskAwaitChat "run-1" 30000] 0 "run-1")
    as (_ & S & P & _).
  - vm_compute. reflexivity.
  - split; [exact S|exact P].
Defined.

(** * Resolution of the model override (embedded-agent variant) *)
Section ModelFacts.
Import Retell EmbeddedServer.

Lemma indexOfFrom_cons (c : ascii) (r : string) (i : Z) :
  Js.indexOfFrom (String c r) "/" i =
    if Ascii.eqb "/" c then i else Js.indexOfFrom r "/" (i + 1).
Proof.
  cbn [Js.indexOfFrom Js.startsWith]. now rewrite andb_true_r.
Qed.

(** The first [/] of [p ++ "/" ++ q] is the one written, when [p] has none. *)
Lemma indexOfFrom_first_slash (p q : string) (i : Z) :
  (0 <= i)%Z ->
  Js.indexOfFrom p "/" i = (-1)%Z ->
  Js.indexOfFrom (p ++ "/" ++ q) "/" i = (i + Z.of_nat (String.length p))%Z.
Proof.
  revert i. induction p as [|c r IH]; intros i Hi.
  - intros _. change (EmptyString ++ "/" ++ q) with (String "/" q).
    rewrite indexOfFrom_cons. simpl. lia.
  - rewrite append_cons, !indexOfFrom_cons.
    destruct (Ascii.eqb "/" c); [intros H; lia|]. intros H.
    rewrite IH; [|lia|exact H]. simpl String.length. lia.
Qed.

Lemma substring_all (s : string) : String.substring 0 (String.length s) s = s.
Proof. induction s as [|c r IH]; simpl; [reflexivity|now rewrite IH]. Qed.

Lemma substring_head (p r : string) :
  String.substring 0 (String.length p) (p ++ r) = p.
Proof.
  induction p as [|c p IH]; [now destruct r|].
  rewrite append_cons. simpl. now rewrite IH.
Qed.

Lemma substring_tail (p q : string) :
  String.substring (S (String.length p))
    (String.length (p ++ "/" ++ q) - S (String.length p)) (p ++ "/" ++ q) = q.
Proof.
  induction p as [|c p IH].
  - change (EmptyString ++ "/" ++ q) with (String "/" q). simpl.
    rewrite Nat.sub_0_r. apply substring_all.
  - rewrite append_cons. simpl String.length. exact IH.
Qed.

Lemma split_at_first_slash (p q : string) :
  Js.indexOf p "/" = (-1)%Z ->
  let i := Js.indexOf (p ++ "/" ++ q) "/" in
  (i =? -1)%Z = false
  /\ Js.sliceTo (p ++ "/" ++ q) i = p
  /\ Js.sliceFrom (p ++ "/" ++ q) (i + 1) = q.
Proof.
  intros H i. unfold Js.indexOf in *.
  assert (i = Z.of_nat (String.length p)) as ->
    by (subst i; rewrite indexOfFrom_first_slash; [lia|lia|exact H]).
  split; [apply Z.eqb_neq; lia|]. unfold Js.sliceTo, Js.sliceFrom.
  replace (Z.to_nat (Z.of_nat (String.length p) + 1))
    with (S (String.length p)) by lia.
  rewrite Nat2Z.id. split; [apply substring_head|apply substring_tail].
Qed.

End ModelFacts.

(** C9, as the code has it: with a default provider name free of [/], an
    absent (or empty) override gives the default provider and the default
    model; an override without [/] keeps the default provider and is
    itself the model; an override [p/q] with no [/] in [p] gives provider
    [p] and model [q]. *)
Theorem model_override_resolution
    (DEFAULT_PROVIDER DEFAULT_MODEL : string) (cfg : Retell.RetellVoiceConfig) :
  Js.indexOf DEFAULT_PROVIDER "/" = (-1)%Z ->
  (Js.truthy (Retell.responseModel cfg) = false ->
   EmbeddedServer.provider DEFAULT_PROVIDER DEFAULT_MODEL cfg = DEFAULT_PROVIDER
   /\ EmbeddedServer.model DEFAULT_PROVIDER DEFAULT_MODEL cfg = DEFAULT_MODEL)
  /\ (forall m,
        Retell.responseModel cfg = Some m -> m <> EmptyString ->
        Js.indexOf m "/" = (-1)%Z ->
        EmbeddedServer.provider DEFAULT_PROVIDER DEFAULT_MODEL cfg
          = DEFAULT_PROVIDER
        /\ EmbeddedServer.model DEFAULT_PROVIDER DEFAULT_MODEL cfg = m)
  /\ (forall p q,
        Retell.responseModel cfg = Some (p ++ "/" ++ q) ->
        Js.indexOf p "/" = (-1)%Z ->
        EmbeddedServer.provider DEFAULT_PROVIDER DEFAULT_MODEL cfg = p
        /\ EmbeddedServer.model DEFAULT_PROVIDER DEFAULT_MODEL cfg = q).
Proof.
  intros D. unfold EmbeddedServer.provider, EmbeddedServer.model,
    EmbeddedServer.slashIndex, EmbeddedServer.modelRef.
  split; [|split].
  - intros A.
    assert (Js.orElse (Retell.responseModel cfg)
              (DEFAULT_PROVIDER ++ "/" ++ DEFAULT_MODEL)
            = DEFAULT_PROVIDER ++ "/" ++ DEFAULT_MODEL) as ->.
    { destruct (Retell.responseModel cfg) as [m|]; simpl in *; [|reflexivity].
      now destruct (String.eqb m ""). }
    destruct (split_at_first_slash DEFAULT_PROVIDER DEFAULT_MODEL D)
      as (-> & -> & ->). now split.
  - intros m R N S. rewrite R. simpl.
    destruct (String.eqb_spec m ""); [contradiction|].
    rewrite S. now split.
  - intros p q R S. rewrite R. simpl.
    destruct (String.eqb_spec (p ++ "/" ++ q) "") as [E|_].
    + apply append_empty_inv in E as [_ E]. discriminate.
    + destruct (split_at_first_slash p q S) as (-> & -> & ->). now split.
Qed.

Lemma model_override_resolution_witness :
  let cfg := {| Retell.allowFrom := []; Retell.greeting := "Hey! What's up?";
                Retell.responseModel := Some "openai/gpt-4o";
                Retell.responseTimeoutMs := 30000 |} in
  EmbeddedServer.provider "anthropic" "claude-opus-4-5" cfg = "openai"
  /\ EmbeddedServer.model "anthropic" "claude-opus-4-5" cfg = "gpt-4o".
Proof.
  intros cfg.
  destruct (model_override_resolution "anthropic" "claude-opus-4-5" cfg)
    as (_ & _ & H).
  - reflexivity.
  - apply (H "openai" "gpt-4o"); reflexivity.
Defined.

(** C9 as worded fails: an override without [/] is used as the model name,
    the default model is not. *)
Lemma bare_override_names_the_model :
  let cfg := {| Retell.allowFrom := []; Retell.greeting := "Hey! What's up?";
                Retell.responseModel := Some "gpt-4o";
                Retell.responseTimeoutMs := 30000 |} in
  Js.indexOf "gpt-4o" "/" = (-1)%Z
  /\ EmbeddedServer.provider "anthropic" "claude-opus-4-5" cfg = "anthropic"
  /\ EmbeddedServer.model "anthropic" "claude-opus-4-5" cfg = "gpt-4o"
  /\ EmbeddedServer.model "anthropic" "claude-opus-4-5" cfg
       <> "claude-opus-4-5".
Proof. repeat split. discriminate. Qed.

(** * Further properties of the call server *)
Section ServerMore.
Import Retell WebSocketServer.

Lemma isType_true (e : Event) (t : string) :
  isType e t = true -> interaction_type e = Some t.
Proof.
  unfold isType. destruct (interaction_type e) as [s|]; [|discriminate].
  intros H. apply String.eqb_eq in H. now subst.
Qed.

Lemma isTurn_of_types (e : Event) :
  isType e "response_required" || isType e "reminder_required" = true ->
  isTurn e.
Proof.
  intros H. apply orb_true_iff in H as [H|H]; apply isType_true in H;
    [now left|now right].
Qed.

Lemma gate_open cfg session :
  negb (authorized session) && (0 <? List.length (allowFrom cfg))%nat = false ->
  authorized session = true \/ allowFrom cfg = [].
Proof.
  destruct (authorized session); [now left|]. simpl.
  destruct (allowFrom cfg); [now right|discriminate].
Qed.


(** The actions of [generateAgentResponse] are calls on the gateway. *)
Lemma generateAgentResponse_sends_nothing ctx gw session msg :
  framesOf (fst (generateAgentResponse ctx gw session msg)) = [].
Proof.
  unfold generateAgentResponse.
  repeat (case_match; simplify_eq); reflexivity.
Qed.

Lemma framesOf_app (a b : list Effect) :
  framesOf (a ++ b) = (framesOf a ++ framesOf b)%list.
Proof. apply omap_app. Qed.

(** The result of a step, spelled out for a turn that the gate lets
    through. *)
Lemma handleMessage_turn_frames cfg gw session event last :
  isTurn event ->
  authorized session = true \/ allowFrom cfg = [] ->
  lastUserMessage (default [] (ev_transcript event)) = Some last ->
  Js.truthy (u_content last) = true ->
  framesOf (snd (handleMessage (Some cfg) gw session (Some event))) =
    match snd (generateAgentResponse (Some cfg) gw
                 (setTranscript session
                    (windowOf (default [] (ev_transcript event))))
                 (Js.orElse (u_content last) "")) with
    | Some r => [ResponseFrame (response_id event) r true (shouldEndCall r)]
    | None => [apology event]
    end.
Proof.
  intros T G L C.
  rewrite (handleMessage_turn cfg gw session event last T G L C). cbv zeta.
  pose proof (generateAgentResponse_sends_nothing (Some cfg) gw
                (setTranscript session
                   (windowOf (default [] (ev_transcript event))))
                (Js.orElse (u_content last) "")) as F.
  destruct (generateAgentResponse _ _ _ _) as [calls [r|]]; simpl in *;
    rewrite framesOf_app, F; reflexivity.
Qed.


(** A turn that carries no user text. *)
Lemma handleMessage_turn_empty cfg gw session event :
  isTurn event ->
  authorized session = true \/ allowFrom cfg = [] ->
  (forall last,
     lastUserMessage (default [] (ev_transcript event)) = Some last ->
     Js.truthy (u_content last) = false) ->
  handleMessage (Some cfg) gw session (Some event) =
    (session, [Send (promptForInput event)]).
Proof.
  intros T G L. destruct (isTurn_dispatch event T) as (H1 & H2 & H3).
  unfold handleMessage. rewrite H1, H2, H3.
  replace (negb (authorized session) && (0 <? List.length (allowFrom cfg))%nat)
    with false by (destruct G as [-> | ->]; [reflexivity|symmetry; apply andb_false_r]).
  cbv zeta. destruct (lastUserMessage _) as [last|]; [|reflexivity].
  now rewrite (L last eq_refl).
Qed.

(** When the backend is contacted. *)
Lemma backend_ready ctx gw session data :
  backendCalls (snd (handleMessage ctx gw session data)) <> 0 ->
  exists cfg event last,
    ctx = Some cfg /\ data = Some event /\ isTurn event
    /\ (authorized session = true \/ allowFrom cfg = [])
    /\ lastUserMessage (default [] (ev_transcript event)) = Some last
    /\ Js.truthy (u_content last) = true.
Proof.
  unfold handleMessage. intros H.
  destruct ctx as [cfg|]; [|now contradiction H].
  destruct data as [event|]; [|now contradiction H].
  destruct (isType event "call_details").
  { destruct (negb _); now contradiction H. }
  destruct (isType event "ping_pong"); [now contradiction H|].
  destruct (isType event "response_required"
            || isType event "reminder_required") eqn:T;
    [|now contradiction H].
  apply isTurn_of_types in T.
  destruct (negb (authorized session) && _) eqn:G; [now contradiction H|].
  apply gate_open in G. cbv zeta in H.
  destruct (lastUserMessage _) as [last|] eqn:L; [|now contradiction H].
  destruct (Js.truthy (u_content last)) eqn:C; [|now contradiction H].
  now exists cfg, event, last.
Qed.

End ServerMore.

Section ServerExtras.
Import Retell WebSocketServer.

(** X1: the backend is contacted only for a [response_required] or
    [reminder_required] event, on a session that is authorized or under an
    empty allowlist, whose transcript has a last user entry with text. *)
Theorem backend_only_for_ready_turns ctx gw session data :
  backendCalls (snd (handleMessage ctx gw session data)) <> 0 ->
  exists cfg event last,
    ctx = Some cfg /\ data = Some event /\ isTurn event
    /\ (authorized session = true \/ allowFrom cfg = [])
    /\ lastUserMessage (default [] (ev_transcript event)) = Some last
    /\ Js.truthy (u_content last) = true.
Proof. apply backend_ready. Qed.

Lemma backend_only_for_ready_turns_witness :
  exists cfg event last,
    Some Fixture.cfg = Some cfg /\ Some Fixture.weatherTurn = Some event
    /\ isTurn event
    /\ (authorized Fixture.authorizedSession = true \/ allowFrom cfg = [])
    /\ lastUserMessage (default [] (ev_transcript event)) = Some last
    /\ Js.truthy (u_content last) = true.
Proof.
  apply (backend_only_for_ready_turns (Some Fixture.cfg)
           (Fixture.answering "Hello") Fixture.authorizedSession
           (Some Fixture.weatherTurn)).
  vm_compute. discriminate.
Defined.

Lemma handleMessage_authorized ctx gw session data :
  authorized session = true ->
  authorized (fst (handleMessage ctx gw session data)) = true.
Proof.
  intros A. unfold handleMessage.
  repeat (case_match; simpl; try assumption); reflexivity.
Qed.

(** X2: once a session is authorized it stays authorized, whatever frames
    follow. *)
Theorem authorized_never_revoked session steps :
  authorized session = true -> authorized (runCall session steps) = true.
Proof.
  unfold runCall. revert session.
  induction steps as [|[[ctx gw] data] steps IH]; intros session A; simpl.
  - exact A.
  - apply IH. now apply handleMessage_authorized.
Qed.

Lemma authorized_never_revoked_witness :
  authorized
    (runCall Fixture.authorizedSession
       [(Some Fixture.cfg, Fixture.answering "Hello", Some Fixture.strangerCall);
        (Some Fixture.cfg, Fixture.answering "Hello", None)]) = true.
Proof. apply authorized_never_revoked. reflexivity. Defined.



End ServerExtras.

Section ServerExtras2.
Import Retell WebSocketServer.

Lemma orElse_some (p d : string) : p <> "" -> Js.orElse (Some p) d = p.
Proof. intros N. simpl. now destruct (String.eqb_spec p ""). Qed.

Lemma orElse_falsy (o : option string) (d : string) :
  Js.truthy o = false -> Js.orElse o d = d.
Proof.
  destruct o as [s|]; simpl; [|reflexivity].
  now destruct (String.eqb s "").
Qed.

Lemma isAllowedCaller_normalized (p q : string) (L : list string) :
  Config.normalizePhone p = Config.normalizePhone q ->
  Config.isAllowedCaller p L = Config.isAllowedCaller q L.
Proof. intros E. unfold Config.isAllowedCaller. now rewrite E. Qed.

Lemma normalizePhone_stripped_eq (a b : string) :
  Config.stripNonPhone a = Config.stripNonPhone b ->
  Config.normalizePhone a = Config.normalizePhone b.
Proof. intros E. unfold Config.normalizePhone. now rewrite E. Qed.

(** X4: a frame that ends the call is either the rejection of a
    [call_details] event or the reply to a turn whose lowercased text
    contains a farewell phrase; the greeting, the holding message, the
    prompt for input, the apology and the heartbeat never end a call. *)
Theorem end_call_only_by_denial_or_farewell ctx gw session data rid text cc :
  In (ResponseFrame rid text cc true)
     (framesOf (snd (handleMessage ctx gw session data))) ->
  exists event,
    data = Some event
    /\ ((interaction_type event = Some "call_details"
         /\ ResponseFrame rid text cc true = rejection)
        \/ (isTurn event /\ shouldEndCall text = true)).
Proof.
  unfold handleMessage.
  destruct ctx as [cfg|]; [|intros []].
  destruct data as [event|]; [|intros []].
  intros H. exists event. split; [reflexivity|].
  destruct (isType event "call_details") eqn:CD.
  { left. apply isType_true in CD. split; [exact CD|].
    destruct (negb _); simpl in H; destruct H as [H|[]]; [|discriminate].
    now symmetry. }
  destruct (isType event "ping_pong");
    [simpl in H; destruct H as [H|[]]; discriminate|].
  destruct (isType event "response_required"
            || isType event "reminder_required") eqn:T; [|destruct H].
  apply isTurn_of_types in T. right. split; [exact T|].
  destruct (negb (authorized session) && _);
    [simpl in H; destruct H as [H|[]]; discriminate|].
  cbv zeta in H.
  destruct (lastUserMessage _) as [last|];
    [|simpl in H; destruct H as [H|[]]; discriminate].
  destruct (Js.truthy (u_content last));
    [|simpl in H; destruct H as [H|[]]; discriminate].
  pose proof (generateAgentResponse_sends_nothing (Some cfg) gw
                (setTranscript session
                   (windowOf (default [] (ev_transcript event))))
                (Js.orElse (u_content last) "")) as F.
  destruct (generateAgentResponse _ _ _ _) as [calls [r|]]; simpl in *;
    rewrite framesOf_app, F in H; simpl in H; destruct H as [H|[]];
    [|discriminate].
  now injection H as _ -> _ ->.
Qed.

Lemma end_call_only_by_denial_or_farewell_witness :
  exists event,
    Some Fixture.strangerCall = Some event
    /\ ((interaction_type event = Some "call_details"
         /\ ResponseFrame (Some 0%Z)
              "Sorry, this number is not authorized. Goodbye." true true
            = rejection)
        \/ (isTurn event
            /\ shouldEndCall "Sorry, this number is not authorized. Goodbye."
               = true)).
Proof.
  apply (end_call_only_by_denial_or_farewell (Some Fixture.cfg)
           (Fixture.answering "Hello") Fixture.freshSession
           (Some Fixture.strangerCall)).
  left. reflexivity.
Defined.

(** X5: two [call_details] events whose numbers have the same normalized
    form, the first of them accepted, are both accepted and give their
    sessions the same key, ["retell:"] followed by that normalized form,
    whatever the call ids are. *)
Theorem same_caller_same_sessionKey cfg gw1 gw2 s1 s2 e1 e2 p1 p2 :
  interaction_type e1 = Some "call_details" ->
  interaction_type e2 = Some "call_details" ->
  numberToCheck (callOrEmpty (call e1)) = Some p1 ->
  numberToCheck (callOrEmpty (call e2)) = Some p2 ->
  p1 <> "" -> p2 <> "" ->
  Config.normalizePhone p1 = Config.normalizePhone p2 ->
  Config.isAllowedCaller p1 (allowFrom cfg) = true ->
  let s1' := fst (handleMessage (Some cfg) gw1 s1 (Some e1)) in
  let s2' := fst (handleMessage (Some cfg) gw2 s2 (Some e2)) in
  authorized s1' = true /\ authorized s2' = true
  /\ sessionKey s1' = "retell:" ++ Config.normalizePhone p1
  /\ sessionKey s2' = sessionKey s1'.
Proof.
  intros T1 T2 N1 N2 P1 P2 E A s1' s2'. subst s1' s2'.
  rewrite (handleMessage_call_details cfg gw1 s1 e1 T1),
          (handleMessage_call_details cfg gw2 s2 e2 T2). cbv zeta.
  change (phoneForSession (callOrEmpty (call e1)))
    with (numberToCheck (callOrEmpty (call e1))).
  change (phoneForSession (callOrEmpty (call e2)))
    with (numberToCheck (callOrEmpty (call e2))).
  rewrite N1, N2, !orElse_some by assumption.
  rewrite <- (isAllowedCaller_normalized p1 p2 _ E), A. simpl.
  now rewrite E.
Qed.

Lemma same_caller_same_sessionKey_witness :
  sessionKey (fst (handleMessage (Some Fixture.cfg) (Fixture.answering "Hi")
                     (Sample.sessionAt "/llm-websocket/call_b")
                     (Some (Sample.callFrom "+1 (555) 123-4567"))))
  = sessionKey (fst (handleMessage (Some Fixture.cfg) (Fixture.answering "Hi")
                       (Sample.sessionAt "/llm-websocket/call_a")
                       (Some (Sample.callFrom "5551234567")))).
Proof.
  apply (same_caller_same_sessionKey Fixture.cfg (Fixture.answering "Hi")
           (Fixture.answering "Hi") (Sample.sessionAt "/llm-websocket/call_a")
           (Sample.sessionAt "/llm-websocket/call_b")
           (Sample.callFrom "5551234567")
           (Sample.callFrom "+1 (555) 123-4567")
           "5551234567" "+1 (555) 123-4567");
    try reflexivity; discriminate.
Defined.

(** X6: under an empty allowlist a [call_details] event without a number
    is accepted and the session key is ["retell:"] followed by the call id
    as [normalizePhone] reads it, so that two calls whose ids hold the same
    digits and [+] signs share one key. *)
Theorem anonymous_calls_keyed_by_callId_digits cfg gw1 gw2 s1 s2 e1 e2 :
  allowFrom cfg = [] ->
  interaction_type e1 = Some "call_details" ->
  interaction_type e2 = Some "call_details" ->
  Js.truthy (numberToCheck (callOrEmpty (call e1))) = false ->
  Js.truthy (numberToCheck (callOrEmpty (call e2))) = false ->
  Config.stripNonPhone (callId s1) = Config.stripNonPhone (callId s2) ->
  let s1' := fst (handleMessage (Some cfg) gw1 s1 (Some e1)) in
  let s2' := fst (handleMessage (Some cfg) gw2 s2 (Some e2)) in
  authorized s1' = true /\ authorized s2' = true
  /\ sessionKey s1' = "retell:" ++ Config.normalizePhone (callId s1)
  /\ sessionKey s2' = sessionKey s1'.
Proof.
  intros O T1 T2 N1 N2 E s1' s2'. subst s1' s2'.
  rewrite (handleMessage_call_details cfg gw1 s1 e1 T1),
          (handleMessage_call_details cfg gw2 s2 e2 T2). cbv zeta.
  change (phoneForSession (callOrEmpty (call e1)))
    with (numberToCheck (callOrEmpty (call e1))).
  change (phoneForSession (callOrEmpty (call e2)))
    with (numberToCheck (callOrEmpty (call e2))).
  rewrite O, !orElse_falsy by assumption. simpl.
  now rewrite (normalizePhone_stripped_eq _ _ E).
Qed.

Lemma anonymous_calls_keyed_by_callId_digits_witness :
  sessionKey (fst (handleMessage (Some Sample.openCfg) (Fixture.answering "Hi")
                     (Sample.sessionAt "/llm-websocket/call_4a2")
                     (Some Sample.webCall))) = "retell:42"
  /\ sessionKey (fst (handleMessage (Some Sample.openCfg)
                        (Fixture.answering "Hi")
                        (Sample.sessionAt "/llm-websocket/call_42b")
                        (Some Sample.webCall))) = "retell:42".
Proof.
  destruct (anonymous_calls_keyed_by_callId_digits Sample.openCfg
              (Fixture.answering "Hi") (Fixture.answering "Hi")
              (Sample.sessionAt "/llm-websocket/call_4a2")
              (Sample.sessionAt "/llm-websocket/call_42b")
              Sample.webCall Sample.webCall)
    as (_ & _ & K1 & K2); try reflexivity.
  split; [exact K1|]. rewrite K2. exact K1.
Defined.

End ServerExtras2.

Section ServerExtras3.
Import Retell WebSocketServer.

(** X7: a turn that gets past the gate but whose transcript is absent,
    empty, without a user entry, or whose last user entry has no text, is
    answered with the prompt for input; the session keeps its transcript
    and the backend is not contacted. *)
Theorem turn_without_user_text_is_prompted cfg gw session event :
  isTurn event ->
  authorized session = true \/ allowFrom cfg = [] ->
  (forall last,
     lastUserMessage (default [] (ev_transcript event)) = Some last ->
     Js.truthy (u_content last) = false) ->
  handleMessage (Some cfg) gw session (Some event) =
    (session,
     [Send (ResponseFrame (response_id event)
              "I'm here! What can I help you with?" true false)])
  /\ backendCalls (snd (handleMessage (Some cfg) gw session (Some event))) = 0.
Proof.
  intros T G L.
  rewrite (handleMessage_turn_empty cfg gw session event T G L).
  split; reflexivity.
Qed.

Lemma turn_without_user_text_is_prompted_witness :
  handleMessage (Some Fixture.cfg) (Fixture.answering "Hello")
    Fixture.authorizedSession (Some Sample.silentTurn) =
  (Fixture.authorizedSession,
   [Send (ResponseFrame (Some 9%Z) "I'm here! What can I help you with?"
            true false)]).
Proof.
  apply (turn_without_user_text_is_prompted Fixture.cfg
           (Fixture.answering "Hello") Fixture.authorizedSession
           Sample.silentTurn).
  - left. reflexivity.
  - left. reflexivity.
  - intros last. discriminate.
Defined.




(** X9: when the gateway settles the chat of a turn with an empty text,
    the caller hears one of the two fixed fallback sentences (the one for
    an aborted run when [aborted] is true) and the call is not ended. *)
Theorem empty_backend_text_falls_back cfg gw session event last :
  isTurn event ->
  authorized session = true \/ allowFrom cfg = [] ->
  lastUserMessage (default [] (ev_transcript event)) = Some last ->
  Js.truthy (u_content last) = true ->
  isConnected gw || connectOk gw = true ->
  (forall opts, exists result, chat gw opts = Some result /\ text result = "") ->
  exists fallback,
    framesOf (snd (handleMessage (Some cfg) gw session (Some event))) =
      [ResponseFrame (response_id event) fallback true false]
    /\ (fallback = "Sorry, I ran out of time on that one. What were you asking?"
        \/ fallback = "Hmm, I'm not sure what to say. Can you try again?").
Proof.
  intros T G L C K R.
  rewrite (handleMessage_turn_frames cfg gw session event last T G L C).
  unfold generateAgentResponse.
  set (opts := {| o_sessionKey := _; o_message := _;
                  o_systemContext := _; o_timeoutMs := _ |}).
  destruct (R opts) as (result & Rc & Rt).
  replace (negb (isConnected gw) && negb (connectOk gw)) with false
    by (destruct (isConnected gw), (connectOk gw); simpl in *; congruence).
  rewrite Rc, Rt. simpl.
  destruct (bool_decide _); eexists; split; eauto.
Qed.

Lemma empty_backend_text_falls_back_witness :
  exists fallback,
    framesOf (snd (handleMessage (Some Fixture.cfg) (Fixture.answering "")
                     Fixture.authorizedSession (Some Fixture.weatherTurn))) =
      [ResponseFrame (Some 7%Z) fallback true false]
    /\ (fallback = "Sorry, I ran out of time on that one. What were you asking?"
        \/ fallback = "Hmm, I'm not sure what to say. Can you try again?").
Proof.
  apply (empty_backend_text_falls_back Fixture.cfg (Fixture.answering "")
           Fixture.authorizedSession Fixture.weatherTurn
           (Fixture.says "user" "That is all, thanks.")); try reflexivity.
  - left. reflexivity.
  - left. reflexivity.
  - intros opts. eexists. split; reflexivity.
Defined.

(** X10: an inbound frame is answered with at most one frame; nothing is
    sent and the session is untouched when there is no server context,
    when the frame does not parse, and when its kind is none of
    [call_details], [ping_pong], [response_required], [reminder_required]. *)
Theorem at_most_one_frame_per_event ctx gw session data :
  List.length (framesOf (snd (handleMessage ctx gw session data))) <= 1
  /\ (ctx = None \/ data = None ->
      handleMessage ctx gw session data = (session, []))
  /\ (forall event,
        data = Some event ->
        isType event "call_details" = false ->
        isType event "ping_pong" = false ->
        isType event "response_required" = false ->
        isType event "reminder_required" = false ->
        handleMessage ctx gw session data = (session, [])).
Proof.
  split; [|split].
  - unfold handleMessage.
    destruct ctx as [cfg|]; [|simpl; lia].
    destruct data as [event|]; [|simpl; lia].
    destruct (isType event "call_details");
      [destruct (negb _); simpl; lia|].
    destruct (isType event "ping_pong"); [simpl; lia|].
    destruct (_ || _); [|simpl; lia].
    destruct (negb (authorized session) && _); [simpl; lia|]. cbv zeta.
    destruct (lastUserMessage _) as [last|]; [|simpl; lia].
    destruct (Js.truthy (u_content last)); [|simpl; lia].
    pose proof (generateAgentResponse_sends_nothing (Some cfg) gw
                  (setTranscript session
                     (windowOf (default [] (ev_transcript event))))
                  (Js.orElse (u_content last) "")) as F.
    destruct (generateAgentResponse _ _ _ _) as [calls [r|]]; simpl in *;
      rewrite framesOf_app, F; simpl; lia.
  - intros [-> | ->]; [reflexivity|now destruct ctx].
  - intros event -> H1 H2 H3 H4. unfold handleMessage.
    destruct ctx; [|reflexivity]. now rewrite H1, H2, H3, H4.
Qed.

Lemma handleMessage_identity ctx gw session data :
  callId (fst (handleMessage ctx gw session data)) = callId session
  /\ (Js.startsWith (sessionKey session) "retell:" = true ->
      Js.startsWith (sessionKey (fst (handleMessage ctx gw session data)))
        "retell:" = true).
Proof.
  unfold handleMessage.
  repeat (case_match; simpl; try (split; [reflexivity|tauto]));
    split; try reflexivity; intros _; reflexivity.
Qed.

(** X11: over a whole call the call id of the session never changes and
    the session key always starts with ["retell:"]. *)
Theorem call_identity_is_stable url uuid steps :
  let s := runCall (fst (handleConnection url uuid)) steps in
  callId s = callIdOf url uuid
  /\ Js.startsWith (sessionKey s) "retell:" = true.
Proof.
  cbv zeta.
  assert (forall steps s,
            callId (runCall s steps) = callId s
            /\ (Js.startsWith (sessionKey s) "retell:" = true ->
                Js.startsWith (sessionKey (runCall s steps)) "retell:" = true))
    as H.
  { clear. unfold runCall.
    induction steps as [|[[ctx gw] data] steps IH]; intros s; simpl;
      [tauto|].
    destruct (IH (fst (handleMessage ctx gw s data))) as [I1 I2].
    destruct (handleMessage_identity ctx gw s data) as [J1 J2].
    split; [congruence|tauto]. }
  destruct (H steps (fst (handleConnection url uuid))) as [H1 H2].
  split; [exact H1|]. apply H2. reflexivity.
Qed.

End ServerExtras3.

(** * The plugin configuration and the service *)
Section IndexFacts.
Import Index.

(** Reading a key off [raw] is reading it off the value that was given. *)
Lemma get_raw (value : Json) (k : string) :
  get (match value with JObj _ => value | _ => JObj [] end) k = get value k.
Proof. now destruct value. Qed.

Lemma stringsOf_no_string (v : Json) :
  (forall items s, v = JArr items -> ~ In (JStr s) items) ->
  stringsOf v = [].
Proof.
  destruct v as [| | | | |items|]; try reflexivity. intros H. simpl.
  assert (forall s, ~ In (JStr s) items) as N by (intros s; now apply H).
  clear H. induction items as [|x items IH]; [reflexivity|].
  assert (forall s, ~ In (JStr s) items) as N'
    by (intros s I; apply (N s); now right).
  simpl. destruct x as [| | | |s| |]; simpl; try (now apply IH).
  exfalso. apply (N s). now left.
Qed.

Lemma service_consistent (cs : list Command) (s : Service) :
  (serverRunning s = true <-> is_Some (ctx s)) ->
  serverRunning (runCommands cs s) = true <-> is_Some (ctx (runCommands cs s)).
Proof.
  unfold runCommands. revert s.
  induction cs as [|c cs IH]; intros s H; simpl; [exact H|].
  apply IH. destruct s as [r c']. unfold runCommand, start, stop.
  destruct c as [config connects|]; simpl in *;
    destruct r, c'; simpl; try destruct connects; simpl;
    first [exact H
          |split; [discriminate|intros [? ?]; discriminate]
          |split; [intros _; eexists; reflexivity|reflexivity]].
Qed.

End IndexFacts.

(** X12: whatever value the plugin is configured with, if its [allowFrom]
    is not an array that holds a string (a single string, a list of
    numbers, a missing key) the parsed allowlist is empty, and then the
    call server accepts the [call_details] of any caller. *)
Theorem mistyped_allowFrom_opens_the_line
    (value : Index.Json) (gw : WebSocketServer.Gateway)
    (session : WebSocketServer.CallSession) (event : Retell.Event) :
  (forall items s,
     Index.get value "allowFrom" = Index.JArr items ->
     ~ In (Index.JStr s) items) ->
  Retell.interaction_type event = Some "call_details" ->
  Index.allowFrom (Index.parse value) = []
  /\ WebSocketServer.authorized
       (fst (WebSocketServer.handleMessage
               (Some (Index.forServer (Index.parse value))) gw session
               (Some event))) = true.
Proof.
  intros H T.
  assert (Index.allowFrom (Index.parse value) = []) as E.
  { unfold Index.parse. cbn [Index.allowFrom]. rewrite get_raw.
    now apply stringsOf_no_string. }
  split; [exact E|].
  rewrite (handleMessage_call_details _ gw session event T). cbv zeta.
  unfold Index.forServer. cbn [Retell.allowFrom]. rewrite E. reflexivity.
Qed.

Lemma mistyped_allowFrom_opens_the_line_witness :
  WebSocketServer.authorized
    (fst (WebSocketServer.handleMessage
            (Some (Index.forServer
                     (Index.parse
                        (Index.JObj
                           [("allowFrom", Index.JStr "+15551234567")]))))
            (Fixture.answering "Hello") Fixture.freshSession
            (Some Fixture.strangerCall))) = true.
Proof.
  apply (mistyped_allowFrom_opens_the_line
           (Index.JObj [("allowFrom", Index.JStr "+15551234567")])
           (Fixture.answering "Hello") Fixture.freshSession
           Fixture.strangerCall).
  - intros items s E. discriminate E.
  - reflexivity.
Defined.

(** X13: the timeout handed to the gateway is never zero: it is the
    configured [responseTimeoutMs] when that is a number other than zero,
    and 30000 when the key is missing, is not a number, or is zero. *)
Theorem response_timeout_default (value : Index.Json) :
  let t := WebSocketServer.timeoutOf (Index.forServer (Index.parse value)) in
  t <> 0%Z
  /\ (forall n,
        Index.get value "responseTimeoutMs" = Index.JNum n -> n <> 0%Z ->
        t = n)
  /\ ((forall n, Index.get value "responseTimeoutMs" = Index.JNum n -> n = 0%Z)
      -> t = 30000%Z).
Proof.
  cbv zeta. unfold WebSocketServer.timeoutOf, Index.forServer, Index.parse.
  cbn [Retell.responseTimeoutMs Index.responseTimeoutMs]. rewrite get_raw.
  destruct (Index.get value "responseTimeoutMs") as [| | |n| | |];
    cbn [Index.numberOr]; try (repeat split; try discriminate; congruence).
  destruct (Z.eqb_spec n 0) as [->|N].
  - repeat split; [discriminate|intros m [= <-]; congruence].
  - repeat split; [exact N|intros m [= <-]; reflexivity|].
    intros H. now specialize (H n eq_refl).
Qed.

(** X14: through any sequence of [start] and [stop] calls of the service,
    [serverRunning] is true exactly when the server context is set; so
    [start] never fails on "Server already running", and a start whose
    gateway connection fails leaves the service as it was. *)
Theorem service_never_half_started
    (cs : list Index.Command) (config : Retell.RetellVoiceConfig)
    (connects : bool) :
  let s := Index.runCommands cs Index.stopped in
  (Index.serverRunning s = true <-> is_Some (Index.ctx s))
  /\ snd (Index.start config connects s) <> Index.Threw Index.AlreadyRunning
  /\ (Index.serverRunning s = false ->
      Index.start config false s = (s, Index.Threw Index.GatewayUnreachable)).
Proof.
  cbv zeta.
  assert (Index.serverRunning (Index.runCommands cs Index.stopped) = true
          <-> is_Some (Index.ctx (Index.runCommands cs Index.stopped))) as I.
  { apply service_consistent. simpl. split; [discriminate|].
    intros [x E]. discriminate. }
  set (s := Index.runCommands cs Index.stopped) in *.
  split; [exact I|]. unfold Index.start, Index.startWebSocketServer.
  destruct (Index.serverRunning s) eqn:R.
  - split; [discriminate|discriminate].
  - destruct (Index.ctx s) as [x|] eqn:C.
    + destruct I as [_ I].
      assert (false = true) by (apply I; now eexists). discriminate.
    + split; [destruct connects; discriminate|].
      intros _. destruct s as [r c]. simpl in *. now subst.
Qed.

(** * The registry of active calls *)

(** X15: opening a connection registers its call id and closing it
    unregisters that id and no other; since the registry is keyed by call
    id alone, closing one of two connections that share an id leaves the
    other unregistered. *)
Theorem registry_open_close
    (url url' : option string) (uuid uuid' : string) (calls : gset string) :
  let s := fst (Registry.handleConnection url uuid calls) in
  let calls1 := snd (Registry.handleConnection url uuid calls) in
  let s' := fst (Registry.handleConnection url' uuid' calls1) in
  let calls2 := snd (Registry.handleConnection url' uuid' calls1) in
  (WebSocketServer.callId s ∈ calls1)
  /\ (WebSocketServer.callId s ∉ Registry.handleClose s calls1)
  /\ (forall other,
        other <> WebSocketServer.callId s ->
        (other ∈ Registry.handleClose s calls1 <-> other ∈ calls))
  /\ (WebSocketServer.callId s' = WebSocketServer.callId s ->
      WebSocketServer.callId s' ∉ Registry.handleClose s calls2).
Proof.
  cbv zeta.
  unfold Registry.handleConnection, Registry.handleClose, Registry.register.
  simpl. split; [|split; [|split]].
  - apply elem_of_union. left. now apply elem_of_singleton.
  - intros H. apply elem_of_difference in H as [_ H]. apply H.
    now apply elem_of_singleton.
  - intros other N.
    rewrite elem_of_difference, elem_of_union, !elem_of_singleton. tauto.
  - intros E H. apply elem_of_difference in H as [_ H]. apply H.
    now apply elem_of_singleton.
Qed.

(** * The embedded agent run *)
Section EmbeddedAgentFacts.
Import EmbeddedAgent.

Lemma texts_nonempty (payloads : option (list Payload)) (t : string) :
  In t (texts payloads) -> t <> "".
Proof.
  unfold texts. intros H. apply filter_In in H as [_ H].
  apply negb_true_iff in H. now destruct (String.eqb_spec t "").
Qed.

End EmbeddedAgentFacts.

(** X16: the session entry of a key is created on the first turn, with the
    session id of the call that asks, and saved; a later turn under the
    same key, also from another call, gets that same entry back, and the
    store is neither changed nor saved again. Entries of other keys are
    not touched. *)
Theorem session_entry_created_once_then_reused
    (store : gmap string EmbeddedAgent.SessionEntry)
    (s1 s2 : EmbeddedServer.CallSession) (t1 t2 : Z) :
  store !! EmbeddedServer.sessionKey s1 = None ->
  EmbeddedServer.sessionKey s2 = EmbeddedServer.sessionKey s1 ->
  let '(store1, e1, saved1) := EmbeddedAgent.sessionEntryOf store s1 t1 in
  saved1 = true
  /\ EmbeddedAgent.e_sessionId e1 = EmbeddedServer.sessionId s1
  /\ store1 !! EmbeddedServer.sessionKey s1 = Some e1
  /\ (forall k, k <> EmbeddedServer.sessionKey s1 -> store1 !! k = store !! k)
  /\ EmbeddedAgent.sessionEntryOf store1 s2 t2 = (store1, e1, false).
Proof.
  intros N K. unfold EmbeddedAgent.sessionEntryOf. rewrite N, K.
  split; [reflexivity|]. split; [reflexivity|].
  split; [apply lookup_insert_eq|]. split.
  - intros k D. now apply lookup_insert_ne.
  - now rewrite lookup_insert_eq.
Qed.

Lemma session_entry_created_once_then_reused_witness :
  let s1 := fst (EmbeddedServer.handleConnection
                   (Some "/llm-websocket/call_1") "uuid-a" "session-a") in
  let s2 := fst (EmbeddedServer.handleConnection
                   (Some "/llm-websocket/call_1") "uuid-b" "session-b") in
  snd (fst (EmbeddedAgent.sessionEntryOf
              (fst (fst (EmbeddedAgent.sessionEntryOf ∅ s1 100))) s2 200))
  = {| EmbeddedAgent.e_sessionId := "session-a";
       EmbeddedAgent.updatedAt := 100 |}.
Proof.
  intros s1 s2.
  pose proof (session_entry_created_once_then_reused ∅ s1 s2 100 200
                (lookup_empty _) eq_refl) as H.
  destruct (EmbeddedAgent.sessionEntryOf ∅ s1 100) as [[store1 e1] saved1]
    eqn:E.
  destruct H as (_ & _ & _ & _ & H). simpl. rewrite H. simpl.
  unfold EmbeddedAgent.sessionEntryOf in E. rewrite lookup_empty in E.
  now injection E as _ <- _.
Defined.

(** X17: the text returned for the payloads of an agent run is never
    empty; error payloads and payloads that are blank after trimming are
    left out of it; and when nothing is left the caller hears the fixed
    sentence for an aborted run or the fixed sentence for an empty one. *)
Theorem embedded_reply_is_speakable
    (payloads : option (list EmbeddedAgent.Payload)) (aborted : bool) :
  EmbeddedAgent.replyText payloads aborted <> ""
  /\ (forall t,
        In t (EmbeddedAgent.texts payloads) ->
        t <> ""
        /\ exists p raw,
             In p (default [] payloads)
             /\ EmbeddedAgent.isError p = false
             /\ EmbeddedAgent.p_text p = Some raw
             /\ t = Js.trim raw)
  /\ (EmbeddedAgent.texts payloads = [] ->
      EmbeddedAgent.replyText payloads aborted =
        if aborted
        then "Sorry, I ran out of time on that one. What were you asking?"
        else "Hmm, I'm not sure what to say. Can you try again?").
Proof.
  split; [|split].
  - unfold EmbeddedAgent.replyText. cbv zeta.
    destruct (String.eqb_spec (String.concat " " (EmbeddedAgent.texts payloads)) "")
      as [E|N]; [now destruct aborted|exact N].
  - intros t H. split; [now apply texts_nonempty in H|].
    unfold EmbeddedAgent.texts in H. apply filter_In in H as [H _].
    apply in_map_iff in H as (p & <- & H). apply filter_In in H as [I C].
    apply andb_true_iff in C as [C1 C2]. apply negb_true_iff in C2.
    destruct (EmbeddedAgent.p_text p) as [raw|] eqn:R; [|discriminate].
    exists p, raw. repeat split; try assumption.
    simpl in *. now destruct (String.eqb raw "").
  - intros E. unfold EmbeddedAgent.replyText. now rewrite E.
Qed.

Example embedded_reply_skips_errors :
  EmbeddedAgent.replyText
    (Some [{| EmbeddedAgent.p_text := Some " It is sunny. ";
              EmbeddedAgent.isError := false |};
           {| EmbeddedAgent.p_text := Some "tool failed";
              EmbeddedAgent.isError := true |};
           {| EmbeddedAgent.p_text := Some "   ";
              EmbeddedAgent.isError := false |};
           {| EmbeddedAgent.p_text := Some "Anything else?";
              EmbeddedAgent.isError := false |}]) false
  = "It is sunny. Anything else?".
Proof. reflexivity. Qed.

(** * Further properties of the pending chats *)
Section ChatInvariants.
Import WebSocketServer GatewayClient GatewayInv.

Lemma completion_speakable (phase text : string) :
  WebSocketServer.text (completion phase text) <> ""
  \/ (error (completion phase text) = None
      /\ aborted (completion phase text) = None).
Proof.
  unfold completion.
  destruct (String.eqb phase "error");
    [left; simpl; destruct (String.eqb_spec text ""); [discriminate|assumption]|].
  destruct (String.eqb phase "aborted");
    [left; simpl; destruct (String.eqb_spec text ""); [discriminate|assumption]|].
  right. now split.
Qed.

Lemma fresh_resolvePromise p v c : fresh (resolvePromise p v c) = fresh c.
Proof. unfold resolvePromise. now destruct (settled c !! p). Qed.

(** Settling promise [p], disarming its timer and forgetting a run keeps
    the invariant, as long as no other pending chat owns that timer. *)
Lemma inv_settle p v rid c :
  inv c ->
  p < fresh c ->
  (forall r chat, pendingChats c !! r = Some chat -> r <> rid ->
                  timeout chat <> p) ->
  (WebSocketServer.text v <> "" \/ (error v = None /\ aborted v = None)) ->
  inv (resolvePromise p v (deleteChat rid (clearTimeout p c))).
Proof.
  intros (W & A & N & S) F O V. split; [|split; [|split]].
  - apply wf_resolvePromise; [now apply wf_forget| |exact F].
    simpl. apply lookup_delete_eq.
  - intros r chat. unfold resolvePromise.
    destruct (settled (deleteChat rid (clearTimeout p c)) !! p); simpl;
      rewrite lookup_delete_Some; intros [D H];
      (rewrite lookup_delete_ne; [now apply A|]);
      intros E; now apply (O r chat H).
  - intros q Q. rewrite fresh_resolvePromise in Q. simpl in Q.
    unfold resolvePromise.
    destruct (settled (deleteChat rid (clearTimeout p c)) !! p) as [w|] eqn:E.
    + simpl in *. destruct (decide (q = p)) as [->|D];
        [left; exists w; exact E|].
      destruct (N q Q) as [H|H]; [now left|right].
      now rewrite lookup_delete_ne.
    + simpl in *. destruct (decide (q = p)) as [->|D].
      * left. rewrite lookup_insert_eq. now exists v.
      * destruct (N q Q) as [H|H]; [left|right].
        -- now rewrite lookup_insert_ne.
        -- now rewrite lookup_delete_ne.
  - intros q w. unfold resolvePromise.
    destruct (settled (deleteChat rid (clearTimeout p c)) !! p) eqn:E;
      simpl in *; [apply S|].
    rewrite lookup_insert_Some. intros [[_ <-]|[_ H]]; [exact V|].
    now apply (S q).
Qed.

Lemma inv_newClient : inv newClient.
Proof.
  split; [apply wf_newClient|]. split; [|split].
  - intros r chat. simpl. rewrite lookup_empty. discriminate.
  - intros p. simpl. lia.
  - intros p v. simpl. rewrite lookup_empty. discriminate.
Qed.

Lemma inv_awaitChat rid ms c : inv c -> inv (snd (awaitChat rid ms c)).
Proof.
  intros (W & A & N & S). split; [now apply wf_awaitChat|].
  split; [|split]; unfold armedEntries, answerable, speakable; simpl.
  - intros r chat. rewrite lookup_insert_Some. intros [[<- <-]|[D H]]; simpl.
    + apply lookup_insert_eq.
    + pose proof (A r chat H) as T. rewrite lookup_insert_ne; [exact T|].
      destruct W as (_ & TF & _). apply TF in T. lia.
  - intros q Q. destruct (decide (q = fresh c)) as [->|D].
    + right. rewrite lookup_insert_eq. now eexists.
    + destruct (N q) as [H|H]; [lia|now left|right].
      now rewrite lookup_insert_ne.
  - exact S.
Qed.

Lemma inv_fireTimeout h c : inv c -> inv (fireTimeout h c).
Proof.
  intros I. unfold fireTimeout.
  destruct (timers c !! h) as [rid|] eqn:E; [|exact I].
  pose proof I as (W & A & N & S). apply inv_settle; [exact I| | |].
  - destruct W as (_ & TF & _). eauto.
  - intros r chat H D T. apply A in H. rewrite T, E in H. congruence.
  - left. discriminate.
Qed.

(** Replacing the chunks of a pending chat keeps the invariant. *)
Lemma inv_setChat rid chat chat' c :
  inv c -> pendingChats c !! rid = Some chat ->
  resolve chat' = resolve chat -> timeout chat' = timeout chat ->
  inv {| pendingChats := <[rid := chat']> (pendingChats c);
         settled := settled c; timers := timers c; fresh := fresh c |}.
Proof.
  intros (W & A & N & S) E R1 R2.
  split; [now apply (wf_setChat rid chat)|].
  split; [|split]; unfold armedEntries, answerable, speakable; simpl.
  - intros r ch. rewrite lookup_insert_Some. intros [[<- <-]|[D H]].
    + rewrite R2. now apply A.
    + now apply A.
  - exact N.
  - exact S.
Qed.

Lemma inv_complete rid chat v c :
  inv c -> pendingChats c !! rid = Some chat ->
  (WebSocketServer.text v <> "" \/ (error v = None /\ aborted v = None)) ->
  inv (resolvePromise (resolve chat) v
         (deleteChat rid (clearTimeout (timeout chat) c))).
Proof.
  intros I E V. pose proof I as (W & A & N & S).
  destruct (proj2 (proj2 (proj2 W)) _ _ E) as [RT RF]. rewrite <- RT.
  apply inv_settle; [exact I|exact RF| |exact V].
  intros r ch H D T. apply A in H. apply A in E.
  rewrite T, RT, E in H. congruence.
Qed.

Lemma inv_handleMessage msg c : inv c -> inv (handleMessage msg c).
Proof.
  intros I. destruct msg as [payload|]; [|exact I]. simpl.
  destruct (runId payload) as [rid|]; [|exact I].
  destruct (String.eqb rid ""); [exact I|].
  destruct (pendingChats c !! rid) as [chat|] eqn:E; [|exact I].
  match goal with
  | |- context [<[rid := ?x]> (pendingChats c)] => set (chat' := x)
  end.
  assert (resolve chat' = resolve chat /\ timeout chat' = timeout chat)
    as [R1 R2] by (subst chat'; now destruct (_ && _)).
  pose proof (inv_setChat rid chat chat' c I E R1 R2) as I1.
  clearbody chat'.
  destruct (_ && _); [|exact I1].
  destruct (isFinal _); [|exact I1].
  apply inv_complete; [exact I1| |apply completion_speakable].
  simpl. apply lookup_insert_eq.
Qed.

Lemma inv_runTask t c : inv c -> inv (runTask t c).
Proof.
  destruct t as [rid ms|h|msg];
    [apply (inv_awaitChat rid ms)|apply inv_fireTimeout|apply inv_handleMessage].
Qed.

Lemma inv_runTasks ts c : inv c -> inv (runTasks ts c).
Proof.
  unfold runTasks. revert c.
  induction ts as [|t ts IH]; intros c I; simpl; [exact I|].
  apply IH. now apply inv_runTask.
Qed.

Lemma runTasks_app ts ts' c :
  runTasks (ts ++ ts') c = runTasks ts' (runTasks ts c).
Proof. unfold runTasks. apply fold_left_app. Qed.

(** A pending chat has not been answered yet. *)
Lemma pending_unsettled rid chat c :
  inv c -> pendingChats c !! rid = Some chat ->
  settled c !! resolve chat = None /\ timers c !! timeout chat = Some rid
  /\ resolve chat = timeout chat.
Proof.
  intros (W & A & _) E. pose proof (A _ _ E) as T.
  destruct W as (U & _ & _ & P). destruct (P _ _ E) as [RT _].
  rewrite RT. split; [eauto|now split].
Qed.

(** A final lifecycle event on a pending chat, spelled out. *)
Lemma handleMessage_final payload rid chat phase c :
  inv c -> pendingChats c !! rid = Some chat -> rid <> "" ->
  runId payload = Some rid -> stream payload = Some "lifecycle" ->
  data_phase payload = Some phase -> isFinal phase = true ->
  let c' := handleMessage (AgentEvent payload) c in
  settled c' !! resolve chat =
    Some (completion phase (Js.trim (String.concat "" (chunks chat))))
  /\ pendingChats c' !! rid = None
  /\ timers c' !! timeout chat = None.
Proof.
  intros I E N R St Ph F c'. subst c'.
  destruct (pending_unsettled rid chat c I E) as (U & _ & _).
  assert (phase <> "") as PN by (intros ->; discriminate).
  simpl. rewrite R. destruct (String.eqb_spec rid ""); [contradiction|].
  rewrite E. unfold streamIs. rewrite St, Ph. simpl.
  destruct (String.eqb_spec phase ""); [contradiction|]. rewrite F.
  unfold resolvePromise. simpl. rewrite U. simpl.
  split; [apply lookup_insert_eq|]. split; apply lookup_delete_eq.
Qed.

(** An assistant snapshot on a pending chat, spelled out. *)
Lemma handleMessage_snapshot payload rid chat t c :
  pendingChats c !! rid = Some chat -> rid <> "" -> t <> "" ->
  runId payload = Some rid -> stream payload = Some "assistant" ->
  data_text payload = Some t ->
  handleMessage (AgentEvent payload) c =
    {| pendingChats :=
         <[rid := {| resolve := resolve chat; timeout := timeout chat;
                     chunks := [t] |}]> (pendingChats c);
       settled := settled c; timers := timers c; fresh := fresh c |}.
Proof.
  intros E N T R St Tx. simpl. rewrite R.
  destruct (String.eqb_spec rid ""); [contradiction|].
  rewrite E. unfold streamIs. rewrite St, Tx. simpl.
  destruct (String.eqb_spec t ""); [contradiction|]. reflexivity.
Qed.

End ChatInvariants.

Section ChatExtras.
Import WebSocketServer GatewayClient GatewayInv.

(** X18: a final lifecycle event ([end], [done], [error], [aborted]) for a
    pending run settles the promise of that chat, which was pending until
    then, with the trimmed text collected so far, removes the run from
    [pendingChats] and disarms its timer, so that the timer firing later
    changes nothing. *)
Theorem completion_settles_and_disarms
    (ts : list Task) (payload : AgentPayload) (rid phase : string)
    (chat : PendingChat) :
  let c := runTasks ts newClient in
  pendingChats c !! rid = Some chat -> rid <> "" ->
  runId payload = Some rid -> stream payload = Some "lifecycle" ->
  data_phase payload = Some phase -> isFinal phase = true ->
  let c' := handleMessage (AgentEvent payload) c in
  settled c !! resolve chat = None
  /\ settled c' !! resolve chat =
       Some (completion phase (Js.trim (String.concat "" (chunks chat))))
  /\ pendingChats c' !! rid = None
  /\ fireTimeout (timeout chat) c' = c'.
Proof.
  intros c E N R St Ph F c'.
  assert (inv c) as I by apply inv_runTasks, inv_newClient.
  destruct (pending_unsettled rid chat c I E) as (U & _ & _).
  destruct (handleMessage_final payload rid chat phase c I E N R St Ph F)
    as (S' & P' & T').
  repeat split; auto.
  subst c'. unfold fireTimeout. now rewrite T'.
Qed.

Lemma completion_settles_and_disarms_witness :
  let c' :=
    runTasks
      [TaskAwaitChat "run-1" 30000;
       TaskMessage (AgentEvent {| runId := Some "run-1";
                                  stream := Some "assistant";
                                  data_text := Some " It is five o'clock. ";
                                  data_phase := None |});
       TaskMessage (AgentEvent {| runId := Some "run-1";
                                  stream := Some "lifecycle";
                                  data_text := None;
                                  data_phase := Some "end" |})]
      newClient in
  settled c' !! 0 =
    Some {| text := "It is five o'clock."; error := None; aborted := None |}
  /\ fireTimeout 0 c' = c'.
Proof.
  intros c'.
  destruct (completion_settles_and_disarms
              [TaskAwaitChat "run-1" 30000;
               TaskMessage (AgentEvent {| runId := Some "run-1";
                                          stream := Some "assistant";
                                          data_text := Some " It is five o'clock. ";
                                          data_phase := None |})]
              {| runId := Some "run-1"; stream := Some "lifecycle";
                 data_text := None; data_phase := Some "end" |}
              "run-1" "end"
              {| resolve := 0; timeout := 0;
                 chunks := [" It is five o'clock. "] |})
    as (_ & S & _ & T); try reflexivity; try discriminate.
  split; [exact S|exact T].
Defined.

(** X19: the text of a pending chat is the latest snapshot, not the
    concatenation: after two assistant events with texts [t1] and [t2] and
    a final [end], the chat is settled with [t2] trimmed. *)
Theorem latest_snapshot_wins
    (ts : list Task) (rid t1 t2 : string) (chat : PendingChat) :
  let c := runTasks ts newClient in
  pendingChats c !! rid = Some chat -> rid <> "" -> t1 <> "" -> t2 <> "" ->
  let says t := TaskMessage (AgentEvent {| runId := Some rid;
                                           stream := Some "assistant";
                                           data_text := Some t;
                                           data_phase := None |}) in
  let ends := TaskMessage (AgentEvent {| runId := Some rid;
                                         stream := Some "lifecycle";
                                         data_text := None;
                                         data_phase := Some "end" |}) in
  settled (runTasks [says t1; says t2; ends] c) !! resolve chat =
    Some {| text := Js.trim t2; error := None; aborted := None |}.
Proof.
  intros c E N T1 T2 says ends.
  assert (inv c) as I by apply inv_runTasks, inv_newClient.
  set (snap t := {| runId := Some rid; stream := Some "assistant";
                    data_text := Some t; data_phase := None |}).
  set (fin := {| runId := Some rid; stream := Some "lifecycle";
                 data_text := None; data_phase := Some "end" |}).
  change (settled
            (handleMessage (AgentEvent fin)
               (handleMessage (AgentEvent (snap t2))
                  (handleMessage (AgentEvent (snap t1)) c))) !! resolve chat
          = Some {| text := Js.trim t2; error := None; aborted := None |}).
  rewrite (handleMessage_snapshot (snap t1) rid chat t1 c E N T1
             eq_refl eq_refl eq_refl).
  set (chat1 := {| resolve := resolve chat; timeout := timeout chat;
                   chunks := [t1] |}).
  set (c1 := {| pendingChats := <[rid := chat1]> (pendingChats c);
                settled := settled c; timers := timers c; fresh := fresh c |}).
  assert (pendingChats c1 !! rid = Some chat1) as E1
    by apply lookup_insert_eq.
  assert (inv c1) as I1 by now apply (inv_setChat rid chat chat1 c I E).
  rewrite (handleMessage_snapshot (snap t2) rid chat1 t2 c1 E1 N T2
             eq_refl eq_refl eq_refl).
  set (chat2 := {| resolve := resolve chat1; timeout := timeout chat1;
                   chunks := [t2] |}).
  set (c2 := {| pendingChats := <[rid := chat2]> (pendingChats c1);
                settled := settled c1; timers := timers c1;
                fresh := fresh c1 |}).
  assert (pendingChats c2 !! rid = Some chat2) as E2
    by apply lookup_insert_eq.
  assert (inv c2) as I2 by now apply (inv_setChat rid chat1 chat2 c1 I1 E1).
  destruct (handleMessage_final fin rid chat2 "end" c2 I2 E2 N
              eq_refl eq_refl eq_refl eq_refl) as (S & _).
  exact S.
Qed.

End ChatExtras.

Section ChatExtras2.
Import WebSocketServer GatewayClient GatewayInv.

Lemma latest_snapshot_wins_witness :
  settled
    (runTasks
       [TaskMessage (AgentEvent {| runId := Some "run-1";
                                   stream := Some "assistant";
                                   data_text := Some "It is";
                                   data_phase := None |});
        TaskMessage (AgentEvent {| runId := Some "run-1";
                                   stream := Some "assistant";
                                   data_text := Some "It is five.";
                                   data_phase := None |});
        TaskMessage (AgentEvent {| runId := Some "run-1";
                                   stream := Some "lifecycle";
                                   data_text := None;
                                   data_phase := Some "end" |})]
       (runTasks [TaskAwaitChat "run-1" 30000] newClient)) !! 0
  = Some {| text := "It is five."; error := None; aborted := None |}.
Proof.
  apply (latest_snapshot_wins [TaskAwaitChat "run-1" 30000] "run-1"
           "It is" "It is five."
           {| resolve := 0; timeout := 0; chunks := [] |});
    try reflexivity; discriminate.
Defined.

(** X20: an [agent] event for one run leaves every other pending run as
    it is: its entry, chunks included, stays in [pendingChats], its
    promise stays pending and its timer stays armed. *)
Theorem agent_events_do_not_cross_runs
    (ts : list Task) (payload : AgentPayload) (rid other : string)
    (chat : PendingChat) :
  let c := runTasks ts newClient in
  runId payload = Some rid -> other <> rid ->
  pendingChats c !! other = Some chat ->
  let c' := handleMessage (AgentEvent payload) c in
  pendingChats c' !! other = Some chat
  /\ settled c' !! resolve chat = None
  /\ timers c' !! timeout chat = Some other.
Proof.
  intros c R D E c'.
  assert (inv c) as I by apply inv_runTasks, inv_newClient.
  destruct (pending_unsettled other chat c I E) as (U & T & RT).
  subst c'. simpl. rewrite R.
  destruct (String.eqb rid ""); [now repeat split|].
  destruct (pendingChats c !! rid) as [mine|] eqn:M; [|now repeat split].
  destruct (pending_unsettled rid mine c I M) as (_ & TM & RM).
  assert (timeout mine <> timeout chat) as DT
    by (intros X; rewrite X, T in TM; congruence).
  match goal with
  | |- context [<[rid := ?x]> (pendingChats c)] => set (mine' := x)
  end.
  assert (resolve mine' = resolve mine /\ timeout mine' = timeout mine)
    as [R1 R2] by (subst mine'; now destruct (_ && _)).
  clearbody mine'.
  destruct (_ && _);
    [|simpl; rewrite lookup_insert_ne by congruence; now repeat split].
  destruct (isFinal _);
    [|simpl; rewrite lookup_insert_ne by congruence; now repeat split].
  unfold resolvePromise. simpl.
  destruct (settled c !! resolve mine') eqn:S; simpl.
  - rewrite lookup_delete_ne, lookup_insert_ne by congruence.
    rewrite lookup_delete_ne by congruence. now repeat split.
  - rewrite lookup_delete_ne, !lookup_insert_ne by congruence.
    rewrite lookup_delete_ne by congruence. now repeat split.
Qed.

Lemma agent_events_do_not_cross_runs_witness :
  let c := runTasks [TaskAwaitChat "run-1" 30000; TaskAwaitChat "run-2" 30000]
             newClient in
  pendingChats
    (handleMessage (AgentEvent {| runId := Some "run-1";
                                  stream := Some "lifecycle";
                                  data_text := None;
                                  data_phase := Some "error" |}) c)
    !! "run-2"
  = Some {| resolve := 1; timeout := 1; chunks := [] |}.
Proof.
  intros c.
  apply (agent_events_do_not_cross_runs
           [TaskAwaitChat "run-1" 30000; TaskAwaitChat "run-2" 30000]
           {| runId := Some "run-1"; stream := Some "lifecycle";
              data_text := None; data_phase := Some "error" |}
           "run-1" "run-2" {| resolve := 1; timeout := 1; chunks := [] |});
    try reflexivity; discriminate.
Defined.

Lemma fireTimeout_settles p c :
  inv c -> p < fresh c -> is_Some (settled (fireTimeout p c) !! p).
Proof.
  intros (W & A & N & S) F. unfold fireTimeout.
  destruct (timers c !! p) as [rid|] eqn:T.
  - unfold resolvePromise. simpl.
    destruct (settled c !! p) as [w|] eqn:E; simpl; [now exists w|].
    rewrite lookup_insert_eq. now eexists.
  - destruct (N p F) as [H|[x H]]; [exact H|congruence].
Qed.

Lemma fresh_runTask t c : fresh c <= fresh (runTask t c).
Proof.
  destruct t as [rid ms|h|[payload|]]; simpl; try lia.
  - unfold fireTimeout. destruct (timers c !! h); [|lia].
    rewrite fresh_resolvePromise. simpl. lia.
  - repeat (case_match; simpl; try lia);
      rewrite ?fresh_resolvePromise; simpl; lia.
Qed.

Lemma fresh_runTasks ts c : fresh c <= fresh (runTasks ts c).
Proof.
  unfold runTasks. revert c.
  induction ts as [|t ts IH]; intros c; simpl; [lia|].
  pose proof (fresh_runTask t c). pose proof (IH (runTask t c)). lia.
Qed.

(** X21: no chat waits for ever: whatever happens between the moment
    [chat] hands out its promise and the moment its timer fires, the
    promise is settled once the timer has fired. *)
Theorem every_chat_is_answered_by_its_timer
    (before after : list Task) (rid : string) (ms : Z) :
  let p := fst (awaitChat rid ms (runTasks before newClient)) in
  let c := runTasks after (snd (awaitChat rid ms (runTasks before newClient))) in
  is_Some (settled (fireTimeout p c) !! p).
Proof.
  cbv zeta. apply fireTimeout_settles.
  - apply inv_runTasks, inv_awaitChat, inv_runTasks, inv_newClient.
  - eapply Nat.lt_le_trans; [|apply fresh_runTasks]. simpl. lia.
Qed.

(** X22: a settlement of the gateway client that is flagged [error] or
    [aborted] always has a text, so the call server, given any settlement
    the client can produce, answers with that text, or with the sentence
    for an empty reply when a plain completion has no text; its sentence
    for an aborted run without text is never spoken. *)
Theorem flagged_settlements_have_text
    (ts : list Task) (p : nat) (v : ChatResponse)
    (cfg : Retell.RetellVoiceConfig) (gw : Gateway)
    (session : CallSession) (msg : string) :
  settled (runTasks ts newClient) !! p = Some v ->
  WebSocketServer.isConnected gw = true ->
  (forall opts, chat gw opts = Some v) ->
  (text v <> "" \/ (error v = None /\ aborted v = None))
  /\ snd (generateAgentResponse (Some cfg) gw session msg) =
       Some (if String.eqb (text v) ""
             then "Hmm, I'm not sure what to say. Can you try again?"
             else text v).
Proof.
  intros S C R.
  assert (inv (runTasks ts newClient)) as (_ & _ & _ & SP)
    by apply inv_runTasks, inv_newClient.
  pose proof (SP p v S) as V. split; [exact V|].
  unfold generateAgentResponse. rewrite C, R. simpl.
  destruct (String.eqb_spec (text v) "") as [E|N]; [|reflexivity].
  destruct V as [V|[_ V]]; [contradiction|]. now rewrite V.
Qed.

Lemma flagged_settlements_have_text_witness :
  snd (generateAgentResponse (Some Fixture.cfg)
         (Sample.settling GatewayClient.tookTooLong)
         Fixture.authorizedSession "Hello?")
  = Some "Sorry, I took too long. Can you try again?".
Proof.
  pose proof (flagged_settlements_have_text
                [TaskAwaitChat "run-1" 30000; TaskTimeout 0] 0
                GatewayClient.tookTooLong Fixture.cfg
                (Sample.settling GatewayClient.tookTooLong)
                Fixture.authorizedSession "Hello?"
                eq_refl eq_refl (fun _ => eq_refl)) as [_ H].
  exact H.
Defined.

End ChatExtras2.

(** * The requests of the gateway client *)
Section RequestFacts.
Import GatewaySocket.

Lemma requestsWf_new : requestsWf newSocket.
Proof.
  unfold requestsWf. split_and!; simpl; intros *; rewrite lookup_empty;
    discriminate.
Qed.

(** Tasks that leave the request tables alone keep them well formed. *)
Lemma requestsWf_same s s' :
  pendingRequests s' = pendingRequests s ->
  requestSettled s' = requestSettled s ->
  requestTimers s' = requestTimers s ->
  requestFresh s' = requestFresh s ->
  requestsWf s -> requestsWf s'.
Proof. unfold requestsWf. now intros -> -> -> ->. Qed.

Lemma requestsWf_awaitRequest id method ms s :
  requestsWf s -> requestsWf (snd (awaitRequest id method ms s)).
Proof.
  intros (T & S & P). unfold requestsWf. split_and!; simpl.
  - intros h i. rewrite lookup_insert_Some. intros [[<- _]|[_ H]].
    + split; [|lia]. destruct (requestSettled s !! requestFresh s) eqn:E;
        [|reflexivity]. apply S in E. lia.
    + destruct (T h i H). split; [assumption|lia].
  - intros p v H. apply S in H. lia.
  - intros i r. rewrite lookup_insert_Some. intros [[<- <-]|[D H]]; simpl.
    + split; [reflexivity|]. exists method. apply lookup_insert_eq.
    + destruct (P i r H) as [E [m M]]. split; [exact E|]. exists m.
      rewrite lookup_insert_ne; [exact M|].
      destruct (T _ _ M). lia.
Qed.

(** Settling a request whose timer is armed, and forgetting it. *)
Lemma requestsWf_settle h id method v s :
  requestsWf s -> requestTimers s !! h = Some (id, method) ->
  requestsWf (settleRequest h v (forgetRequest id h s)).
Proof.
  intros (T & S & P) A. destruct (T _ _ A) as [U F].
  unfold settleRequest. simpl. rewrite U.
  unfold requestsWf. split_and!; simpl.
  - intros h' i. rewrite lookup_delete_Some. intros [D H].
    destruct (T _ _ H). split; [|assumption]. now rewrite lookup_insert_ne.
  - intros p w. rewrite lookup_insert_Some. intros [[<- _]|[_ H]]; eauto.
  - intros i r. rewrite lookup_delete_Some. intros [D H].
    destruct (P i r H) as [E [m M]]. split; [exact E|]. exists m.
    rewrite lookup_delete_ne; [exact M|]. intros X.
    rewrite <- X, A in M. congruence.
Qed.

Lemma requestsWf_handleMessage k uuid data s :
  requestsWf s -> requestsWf (handleMessage k uuid data s).
Proof.
  intros W. unfold handleMessage. destruct data as [msg|]; [|exact W].
  destruct (_ && _).
  { apply (requestsWf_same s); try reflexivity; exact W. }
  destruct (_ && _).
  { unfold settleConnect. simpl.
    destruct (connectSettled s !! k);
      apply (requestsWf_same s); try reflexivity; exact W. }
  destruct (_ && _).
  { unfold settleConnect. simpl.
    destruct (connectSettled s !! k);
      apply (requestsWf_same s); try reflexivity; exact W. }
  destruct (_ && _).
  { destruct (pendingRequests s !! Js.orElse (m_id msg) "") as [r|] eqn:E;
      [|exact W].
    destruct (proj2 (proj2 W) _ _ E) as [-> [m M]].
    now apply (requestsWf_settle _ _ m). }
  destruct (_ && _); [|exact W].
  apply (requestsWf_same s); try reflexivity; exact W.
Qed.

Lemma requestsWf_runTask t s : requestsWf s -> requestsWf (runTask t s).
Proof.
  intros W. destruct t as [id method ms|h|k uuid data|r ms|h|];
    cbn [runTask].
  - now apply requestsWf_awaitRequest.
  - unfold fireRequestTimeout.
    destruct (requestTimers s !! h) as [[id method]|] eqn:E; [|exact W].
    now apply (requestsWf_settle _ _ method).
  - now apply requestsWf_handleMessage.
  - apply (requestsWf_same s); try reflexivity; exact W.
  - apply (requestsWf_same s); try reflexivity; exact W.
  - apply (requestsWf_same s); try reflexivity; exact W.
Qed.

Lemma requestsWf_runTasks ts s : requestsWf s -> requestsWf (runTasks ts s).
Proof.
  unfold runTasks. revert s.
  induction ts as [|t ts IH]; intros s W; simpl; [exact W|].
  apply IH. now apply requestsWf_runTask.
Qed.

(** A response frame that is not a handshake answer and reports failure
    goes to the promise of [connect] and stops there. *)
Lemma handleMessage_failed_res k uuid msg s :
  m_type msg = Some "res" -> m_ok msg = false ->
  let s' := handleMessage k uuid (Some msg) s in
  pendingRequests s' = pendingRequests s
  /\ requestSettled s' = requestSettled s
  /\ requestTimers s' = requestTimers s.
Proof.
  intros T O. cbv zeta. unfold handleMessage. rewrite T, O. simpl.
  destruct (isStr (payloadType msg) "hello-ok");
    unfold settleConnect; simpl; destruct (connectSettled s !! k);
    now repeat split.
Qed.

End RequestFacts.

Section RequestExtras.
Import GatewaySocket.

(** X23: a response frame that reports failure ([ok] false) never reaches
    the request it answers: whatever its id, the pending requests, their
    promises and their timers are as before, and the request is rejected
    only when its timer fires, with "Request timeout: " and the method,
    not with the error the gateway sent. *)
Theorem failed_response_never_reaches_request
    (ts : list Task) (k h : nat) (uuid id method : string) (msg : Msg) :
  let s := runTasks ts newSocket in
  requestTimers s !! h = Some (id, method) ->
  m_type msg = Some "res" -> m_ok msg = false ->
  let s' := handleMessage k uuid (Some msg) s in
  pendingRequests s' = pendingRequests s
  /\ requestSettled s' !! h = None
  /\ requestTimers s' !! h = Some (id, method)
  /\ requestSettled (fireRequestTimeout h s') !! h =
       Some (Rejected ("Request timeout: " ++ method)).
Proof.
  intros s A T O s'.
  assert (requestsWf s) as W by apply requestsWf_runTasks, requestsWf_new.
  destruct (proj1 W _ _ A) as [U _].
  destruct (handleMessage_failed_res k uuid msg s T O) as (P & S & Tm).
  fold s' in P, S, Tm.
  split; [exact P|]. split; [now rewrite S|]. split; [now rewrite Tm|].
  unfold fireRequestTimeout. rewrite Tm, A.
  unfold settleRequest. simpl. rewrite S, U. simpl. apply lookup_insert_eq.
Qed.

Lemma failed_response_never_reaches_request_witness :
  let s := runTasks [TaskRequest "req-1" "chat.send" 5000] newSocket in
  let failure := {| m_type := Some "res"; m_event := None;
                    m_id := Some "req-1"; m_ok := false;
                    m_payload := None;
                    m_error := Some "unknown session" |} in
  requestSettled
    (fireRequestTimeout 0 (handleMessage 0 "uuid-2" (Some failure) s)) !! 0
  = Some (Rejected "Request timeout: chat.send").
Proof.
  intros s failure.
  destruct (failed_response_never_reaches_request
              [TaskRequest "req-1" "chat.send" 5000] 0 0 "uuid-2" "req-1"
              "chat.send" failure eq_refl eq_refl eq_refl)
    as (_ & _ & _ & H).
  exact H.
Defined.

(** X24: a response frame with [ok] true and the id of a pending request
    resolves that request, which was pending until then, with the payload
    of the frame, removes it from [pendingRequests] and disarms its timer,
    so that the timer firing later changes nothing. *)
Theorem ok_response_resolves_request
    (ts : list Task) (k : nat) (uuid id : string) (msg : Msg)
    (r : PendingRequest) :
  let s := runTasks ts newSocket in
  pendingRequests s !! id = Some r -> id <> "" ->
  m_type msg = Some "res" -> m_ok msg = true -> m_id msg = Some id ->
  isStr (payloadType msg) "hello-ok" = false ->
  let s' := handleMessage k uuid (Some msg) s in
  requestSettled s !! rq_promise r = None
  /\ requestSettled s' !! rq_promise r = Some (Resolved (m_payload msg))
  /\ pendingRequests s' !! id = None
  /\ fireRequestTimeout (rq_timeout r) s' = s'.
Proof.
  intros s E N T O I H s'.
  assert (requestsWf s) as W by apply requestsWf_runTasks, requestsWf_new.
  destruct (proj2 (proj2 W) _ _ E) as [RT [m M]].
  destruct (proj1 W _ _ M) as [U _]. rewrite <- RT in U.
  assert (s' = settleRequest (rq_promise r) (Resolved (m_payload msg))
                 (forgetRequest id (rq_timeout r) s)) as ->.
  { subst s'. unfold handleMessage. rewrite T, O, I, H. simpl.
    destruct (String.eqb_spec id ""); [contradiction|]. simpl.
    now rewrite E. }
  split; [exact U|].
  unfold settleRequest. simpl. rewrite U. simpl.
  split; [apply lookup_insert_eq|].
  split; [apply lookup_delete_eq|].
  unfold fireRequestTimeout. simpl. now rewrite lookup_delete_eq.
Qed.

Lemma ok_response_resolves_request_witness :
  let s := runTasks [TaskRequest "req-1" "chat.send" 5000] newSocket in
  let answer := {| m_type := Some "res"; m_event := None;
                   m_id := Some "req-1"; m_ok := true;
                   m_payload := None; m_error := None |} in
  requestSettled (handleMessage 0 "uuid-2" (Some answer) s) !! 0
  = Some (Resolved None).
Proof.
  intros s answer.
  assert ("req-1" <> "") as N by discriminate.
  destruct (ok_response_resolves_request
              [TaskRequest "req-1" "chat.send" 5000] 0 "uuid-2" "req-1"
              answer {| rq_promise := 0; rq_timeout := 0 |}
              eq_refl N eq_refl eq_refl eq_refl eq_refl)
    as (_ & H & _).
  exact H.
Defined.

(** X25: when the timer of a request fires while armed, the request is
    rejected with "Request timeout: " and its method and is removed from
    [pendingRequests]; a successful response that arrives for it afterwards
    leaves the client exactly as it is. *)
Theorem request_timeout_rejects
    (ts : list Task) (k h : nat) (uuid id method : string) (msg : Msg) :
  let s := runTasks ts newSocket in
  requestTimers s !! h = Some (id, method) ->
  let s' := fireRequestTimeout h s in
  requestSettled s' !! h = Some (Rejected ("Request timeout: " ++ method))
  /\ pendingRequests s' !! id = None
  /\ (m_type msg = Some "res" -> m_ok msg = true -> m_id msg = Some id ->
      isStr (payloadType msg) "hello-ok" = false ->
      handleMessage k uuid (Some msg) s' = s').
Proof.
  intros s A s'.
  assert (requestsWf s) as W by apply requestsWf_runTasks, requestsWf_new.
  destruct (proj1 W _ _ A) as [U _].
  assert (s' = settleRequest h (Rejected ("Request timeout: " ++ method))
                 (forgetRequest id h s)) as E
    by (subst s'; unfold fireRequestTimeout; now rewrite A).
  assert (pendingRequests s' !! id = None) as P.
  { rewrite E. unfold settleRequest. simpl. rewrite U. simpl.
    apply lookup_delete_eq. }
  split; [|split; [exact P|]].
  - rewrite E. unfold settleRequest. simpl. rewrite U. simpl.
    apply lookup_insert_eq.
  - intros T O I H. unfold handleMessage. rewrite T, O, I, H. simpl.
    destruct (String.eqb id ""); simpl; [reflexivity|]. now rewrite P.
Qed.

Lemma request_timeout_rejects_witness :
  requestSettled
    (fireRequestTimeout 0
       (runTasks [TaskRequest "req-1" "chat.send" 5000] newSocket)) !! 0
  = Some (Rejected "Request timeout: chat.send").
Proof.
  destruct (request_timeout_rejects
              [TaskRequest "req-1" "chat.send" 5000] 0 0 "uuid-2" "req-1"
              "chat.send"
              {| m_type := None; m_event := None; m_id := None; m_ok := true;
                 m_payload := None; m_error := None |} eq_refl)
    as (H & _).
  exact H.
Defined.

Lemma extraSystemPrompt_nonempty (session : WebSocketServer.CallSession) :
  String.eqb (WebSocketServer.extraSystemPrompt session) "" = false.
Proof.
  unfold WebSocketServer.extraSystemPrompt.
  destruct (1 <? List.length (WebSocketServer.transcript session))%nat;
    reflexivity.
Qed.

(** X26: the message that [chat] sends for a turn of the call server is
    never the bare words of the caller: the system context of the server
    is not empty, so the message is that context in a "[Context: ...]"
    header, a blank line, and then the caller's words; only an absent or
    empty context leaves the words alone. *)
Theorem chat_message_carries_context
    (session : WebSocketServer.CallSession) (message : string) :
  fullMessage message (Some (WebSocketServer.extraSystemPrompt session)) =
    "[Context: " ++ WebSocketServer.extraSystemPrompt session ++ "]"
    ++ Js.nl ++ Js.nl ++ message
  /\ fullMessage message None = message
  /\ fullMessage message (Some "") = message.
Proof.
  split; [|split; reflexivity].
  unfold fullMessage. simpl. now rewrite extraSystemPrompt_nonempty.
Qed.

End RequestExtras.

(** * Further properties of the caller authorization *)
Section ConfigExtras.
Import Config.

Lemma keptChar_stripNonPhone (s : string) (c : ascii) :
  In c (list_ascii_of_string (stripNonPhone s)) -> keptChar c = true.
Proof.
  induction s as [|a r IH]; simpl; [intros []|].
  destruct (keptChar a) eqn:K; [|exact IH].
  simpl. intros [<-|H]; [exact K|now apply IH].
Qed.

Lemma stripNonPhone_country (s : string) :
  stripNonPhone ("+1" ++ s) = "+1" ++ stripNonPhone s.
Proof. reflexivity. Qed.

Lemma normalizePhone_is_stripped (x : string) :
  stripNonPhone (normalizePhone x) = normalizePhone x.
Proof.
  pose proof (stripNonPhone_kept x) as K. unfold normalizePhone.
  set (n := stripNonPhone x) in *.
  destruct (negb _ && _); [|exact K].
  destruct (_ =? 10)%nat; [now rewrite stripNonPhone_country, K|].
  destruct (_ && _); [|exact K]. now rewrite stripNonPhone_plus, K.
Qed.

(** X27: a normalized number consists of digits and [+] signs only,
    whatever the input. *)
Theorem normalizePhone_charset (x : string) (c : ascii) :
  In c (list_ascii_of_string (normalizePhone x)) ->
  Js.isDigit c = true \/ c = "+"%char.
Proof.
  intros H. rewrite <- normalizePhone_is_stripped in H.
  apply keptChar_stripNonPhone in H.
  unfold keptChar in H. apply orb_true_iff in H as [K|K]; [now left|right].
  now apply Ascii.eqb_eq in K.
Qed.

Lemma normalizePhone_charset_witness :
  Js.isDigit "5"%char = true \/ "5"%char = "+"%char.
Proof.
  apply (normalizePhone_charset "(555) 123-4567" "5"%char).
  vm_compute. tauto.
Defined.

Lemma existsb_normalized (p : string) (L : list string) :
  existsb (fun allowed => String.eqb (normalizePhone (normalizePhone p))
                            (normalizePhone allowed))
          (map normalizePhone L)
  = existsb (fun allowed => String.eqb (normalizePhone p)
                              (normalizePhone allowed)) L.
Proof.
  induction L as [|e L IH]; [reflexivity|]. simpl.
  rewrite IH, !(normalizePhone_fixed p _ eq_refl).
  now rewrite (normalizePhone_fixed e _ eq_refl).
Qed.

(** X28: the decision does not depend on how the numbers are written:
    normalizing the caller's number and every entry of the allowlist
    beforehand gives the same answer. Adding entries to an allowlist that
    is not empty never turns an allowed caller away, while adding the
    first entry does: the empty list allows everyone. *)
Theorem isAllowedCaller_by_normal_form (p : string) (L L' : list string) :
  isAllowedCaller (normalizePhone p) (map normalizePhone L)
    = isAllowedCaller p L
  /\ (L <> [] -> isAllowedCaller p L = true ->
      isAllowedCaller p (L ++ L')%list = true
      /\ isAllowedCaller p (L' ++ L)%list = true)
  /\ isAllowedCaller "+15559990000" [] = true
  /\ isAllowedCaller "+15559990000" ["+15551234567"] = false.
Proof.
  split; [|split; [|split; reflexivity]].
  - unfold isAllowedCaller. rewrite length_map.
    destruct (List.length L =? 0)%nat; [reflexivity|].
    apply existsb_normalized.
  - intros N A. apply isAllowedCaller_iff in A as [A|(e & I & E)];
      [contradiction|].
    split; apply isAllowedCaller_iff; right; exists e;
      (split; [apply in_or_app; auto|exact E]).
Qed.

End ConfigExtras.

Section AuthorizationExtras.
Import Retell WebSocketServer.

(** X29: a session that is not authorized becomes authorized by one kind
    of frame only, a [call_details] event whose number the allowlist
    accepts; and while it is not authorized and the allowlist is not
    empty, no frame of any kind makes the server contact the backend. *)
Theorem only_accepted_call_details_authorizes ctx gw session data :
  authorized session = false ->
  (authorized (fst (handleMessage ctx gw session data)) = true ->
   exists cfg event,
     ctx = Some cfg /\ data = Some event
     /\ interaction_type event = Some "call_details"
     /\ Config.isAllowedCaller
          (Js.orElse (numberToCheck (callOrEmpty (call event))) "")
          (allowFrom cfg) = true)
  /\ ((forall cfg, ctx = Some cfg -> allowFrom cfg <> []) ->
      backendCalls (snd (handleMessage ctx gw session data)) = 0).
Proof.
  intros A. split.
  - unfold handleMessage.
    destruct ctx as [cfg|]; [|simpl; congruence].
    destruct data as [event|]; [|simpl; congruence].
    destruct (isType event "call_details") eqn:T.
    + apply isType_true in T. cbv zeta.
      destruct (Config.isAllowedCaller _ _) eqn:I; simpl.
      * intros _. exists cfg, event. repeat split; assumption.
      * congruence.
    + repeat (case_match; simpl; try congruence).
  - intros N.
    destruct (backendCalls (snd (handleMessage ctx gw session data))) eqn:B;
      [reflexivity|].
    assert (backendCalls (snd (handleMessage ctx gw session data)) <> 0) as B'
      by (rewrite B; discriminate).
    apply backend_ready in B' as (cfg & event & last & -> & _ & _ & G & _).
    destruct G as [G|G]; [congruence|]. now apply (N cfg eq_refl) in G.
Qed.

End AuthorizationExtras.

Lemma only_accepted_call_details_authorizes_witness :
  WebSocketServer.backendCalls
    (snd (WebSocketServer.handleMessage (Some Fixture.cfg)
            (Fixture.answering "Hello") Fixture.freshSession
            (Some Fixture.weatherTurn))) = 0.
Proof.
  destruct (only_accepted_call_details_authorizes (Some Fixture.cfg)
              (Fixture.answering "Hello") Fixture.freshSession
              (Some Fixture.weatherTurn) eq_refl) as [_ H].
  apply H. intros cfg E. injection E as <-. discriminate.
Defined.
